(** * novel-agent: the provider layer and the conversation session

    A shallow embedding of [src/providers/base.ts], [src/providers/claude.ts],
    [src/providers/deepseek.ts] and [src/agent.ts], and the properties of the
    provider abstraction that the specification states about them.

    Conventions of the embedding.
    - A JavaScript string is the list of its UTF-16 code units ([jsstring]).
    - A JavaScript [number] is an IEEE 754 binary64 value ([float]).
    - A call that may throw returns a [completion]; a method that mutates
      [this] or talks to the network is a function of the state it reads,
      returning the state it leaves (the monad [M]).
    - An async generator is described by what a consumer that drains it
      sees: the values yielded, in order, and how the generator ended.
    - [console.error] only writes to the log and is left out. *)

From Stdlib Require Import String Ascii ZArith List Bool Lia.
From Stdlib Require Import Floats.PrimFloat.
From Stdlib Require Strings.Byte.
Import ListNotations.

Set Implicit Arguments.
Set Warnings "-inexact-float,-register-all".

(** ** JavaScript values shared by all modules *)

Abbreviation codeunit := Z (only parsing).
Abbreviation jsstring := (list Z) (only parsing).

(** The code units of an ASCII literal. *)
Definition js (s : string) : jsstring :=
  map (fun a => Z.of_N (N_of_ascii a)) (list_ascii_of_string s).

Fixpoint jsstring_eqb (a b : jsstring) : bool :=
  match a, b with
  | [], [] => true
  | x :: a', y :: b' => Z.eqb x y && jsstring_eqb a' b'
  | _, _ => false
  end.

Definition number := float.

(** What a [throw] carries: an [Error] with its message, or any other value
    ([error instanceof Error] is false for it). *)
Inductive Thrown : Type :=
  | ErrorObject (message : jsstring)
  | NonError.

Inductive completion (A : Type) : Type :=
  | Normal (a : A)
  | Throw (e : Thrown).
Arguments Normal {A} a.
Arguments Throw {A} e.

(** [error instanceof Error ? error.message : '未知错误'] *)
Definition unknownError : jsstring := [0x672A; 0x77E5; 0x9519; 0x8BEF]%Z.

Definition messageOf (error : Thrown) : jsstring :=
  match error with
  | ErrorObject message => message
  | NonError => unknownError
  end.

(** A drained async generator. *)
Record Drained (A : Type) : Type := mkDrained {
  yielded : list A;
  finished : completion unit
}.

(** JavaScript truthiness of the values that [||] and [if] test here. *)
Definition truthy_string (s : jsstring) : bool :=
  match s with [] => false | _ :: _ => true end.

Definition truthy_number (x : number) : bool :=
  negb (PrimFloat.eqb x 0%float) && PrimFloat.eqb x x.

(** [x || d] for an optional field: [undefined] and falsy values give [d]. *)
Definition or_string (x : option jsstring) (d : jsstring) : jsstring :=
  match x with
  | Some s => if truthy_string s then s else d
  | None => d
  end.

Definition or_number (x : option number) (d : number) : number :=
  match x with
  | Some v => if truthy_number v then v else d
  | None => d
  end.

(** The code unit of an ASCII character. *)
Definition ch (a : ascii) : codeunit := Z.of_N (N_of_ascii a).
Arguments ch a%_char.

(** ** base.ts *)

Inductive Role : Type := user | assistant | system.

Definition Role_eqb (a b : Role) : bool :=
  match a, b with
  | user, user | assistant, assistant | system, system => true
  | _, _ => false
  end.

Module Message.
Record t : Type := mk { role : Role; content : jsstring }.
End Message.

Module Usage.
Record t : Type := mk {
  promptTokens : number;
  completionTokens : number;
  totalTokens : number
}.
End Usage.

Module ModelResponse.
Record t : Type := mk {
  content : jsstring;
  model : jsstring;
  usage : option Usage.t
}.
End ModelResponse.

Module ModelConfig.
Record t : Type := mk {
  apiKey : jsstring;
  model : option jsstring;
  maxTokens : option number;
  temperature : option number;
  baseURL : option jsstring
}.
End ModelConfig.

Module ModelProvider.

(** The protected fields of an instance. *)
Record t : Type := mk {
  apiKey : jsstring;
  model : jsstring;
  maxTokens : number;
  temperature : number;
  baseURL : option jsstring
}.

(** The value [getConfig] returns. *)
Record Config : Type := mkConfig {
  config_provider : jsstring;
  config_model : jsstring;
  config_maxTokens : number;
  config_temperature : number
}.

(** The abstract methods a subclass supplies. [World] is everything a
    remote call may read and change (the network and the backend). *)
Class Impl (World : Type) : Type := {
  getDefaultModel : jsstring;
  getProviderName : jsstring;
  chat : t -> list Message.t -> option jsstring -> World ->
         completion ModelResponse.t * World
}.

Section Methods.
Context {World : Type} {P : Impl World}.

Definition constructor (config : ModelConfig.t) : t :=
  {| apiKey := ModelConfig.apiKey config;
     model := or_string (ModelConfig.model config) getDefaultModel;
     maxTokens := or_number (ModelConfig.maxTokens config) 4096%float;
     temperature := or_number (ModelConfig.temperature config) 0.7%float;
     baseURL := ModelConfig.baseURL config |}.

(** The default [streamChat]: one [chat], its content the only fragment. *)
Definition streamChat (this : t) (messages : list Message.t)
    (systemPrompt : option jsstring) (w : World)
    : Drained jsstring * World :=
  match chat this messages systemPrompt w with
  | (Normal response, w') =>
      (mkDrained [ModelResponse.content response] (Normal tt), w')
  | (Throw e, w') => (mkDrained [] (Throw e), w')
  end.

Definition getConfig (this : t) : Config :=
  {| config_provider := getProviderName;
     config_model := model this;
     config_maxTokens := maxTokens this;
     config_temperature := temperature this |}.
End Methods.

End ModelProvider.

(** ** claude.ts *)

Module ClaudeProvider.

(** What [client.messages.create] receives. *)
Module CreateParams.
Record t : Type := mk {
  model : jsstring;
  max_tokens : number;
  temperature : number;
  system : option jsstring;
  messages : list Message.t
}.
End CreateParams.

(** What it resolves to: content blocks, the serving model, the counters. *)
Record Block : Type := mkBlock {
  block_type : jsstring;
  block_text : option jsstring
}.

Record Reply : Type := mkReply {
  reply_content : list Block;
  reply_model : jsstring;
  input_tokens : number;
  output_tokens : number
}.

Definition convertMessages (messages : list Message.t) : list Message.t :=
  map (fun msg => Message.mk (Message.role msg) (Message.content msg))
    (filter (fun msg => negb (Role_eqb (Message.role msg) system)) messages).

(** The argument of [client.messages.create] in [chat]. *)
Definition request (this : ModelProvider.t) (messages : list Message.t)
    (systemPrompt : option jsstring) : CreateParams.t :=
  let anthropicMessages := convertMessages messages in
  {| CreateParams.model := ModelProvider.model this;
     CreateParams.max_tokens := ModelProvider.maxTokens this;
     CreateParams.temperature := ModelProvider.temperature this;
     CreateParams.system := systemPrompt;
     CreateParams.messages := anthropicMessages |}.

(** [Array.prototype.join]. *)
Fixpoint join (sep : jsstring) (parts : list jsstring) : jsstring :=
  match parts with
  | [] => []
  | [p] => p
  | p :: rest => p ++ sep ++ join sep rest
  end.

Definition errorPrefix : jsstring :=
  js "Claude API " ++ [0x9519; 0x8BEF]%Z ++ js ": ".

Section Chat.
Context {World : Type}.
(** The SDK call, which this repository does not define. *)
Variable create : CreateParams.t -> World -> completion Reply * World.

Definition chat (this : ModelProvider.t) (messages : list Message.t)
    (systemPrompt : option jsstring) (w : World)
    : completion ModelResponse.t * World :=
  match create (request this messages systemPrompt) w with
  | (Normal response, w') =>
      let content :=
        join [10%Z]
          (map (fun block =>
                  match block_text block with Some text => text | None => [] end)
             (filter (fun block => jsstring_eqb (block_type block) (js "text"))
                (reply_content response))) in
      (Normal
         {| ModelResponse.content := content;
            ModelResponse.model := reply_model response;
            ModelResponse.usage :=
              Some {| Usage.promptTokens := input_tokens response;
                      Usage.completionTokens := output_tokens response;
                      Usage.totalTokens :=
                        PrimFloat.add (input_tokens response)
                          (output_tokens response) |} |},
       w')
  | (Throw error, w') =>
      (Throw (ErrorObject (errorPrefix ++ messageOf error)), w')
  end.

#[local] Instance impl : ModelProvider.Impl World :=
  {| ModelProvider.getDefaultModel := js "claude-sonnet-4-5-20250929";
     ModelProvider.getProviderName := js "Claude";
     ModelProvider.chat := chat |}.
End Chat.

(** *** [streamChat] *)

(** The events of a streamed reply, as far as [streamChat] tells them apart:
    a [content_block_delta] with its delta, which is a [text_delta] with its
    text or of another type, or an event of another type. *)
Inductive Delta : Type :=
  | TextDelta (text : jsstring)
  | OtherDelta.

Inductive Event : Type :=
  | ContentBlockDelta (delta : Delta)
  | OtherEvent.

(** What [for await] sees of the stream: the events, then its end or a
    rejection. *)
Record EventStream : Type := mkEventStream {
  events : list Event;
  broken : option Thrown
}.

Definition streamErrorPrefix : jsstring :=
  js "Claude " ++ [0x6D41; 0x5F0F; 0x9519; 0x8BEF]%Z ++ js ": ".

(** The body of [for await (const event of stream)]. *)
Fixpoint fragments (evs : list Event) : list jsstring :=
  match evs with
  | [] => []
  | ContentBlockDelta (TextDelta text) :: rest => text :: fragments rest
  | _ :: rest => fragments rest
  end.

Section Stream.
Context {World : Type}.
(** The SDK call with [stream: true], which this repository does not define. *)
Variable createStream :
  CreateParams.t -> World -> completion EventStream * World.

Definition streamChat (this : ModelProvider.t) (messages : list Message.t)
    (systemPrompt : option jsstring) (w : World)
    : Drained jsstring * World :=
  match createStream (request this messages systemPrompt) w with
  | (Normal stream, w') =>
      (mkDrained (fragments (events stream))
         match broken stream with
         | Some error => Throw (ErrorObject (streamErrorPrefix ++ messageOf error))
         | None => Normal tt
         end,
       w')
  | (Throw error, w') =>
      (mkDrained [] (Throw (ErrorObject (streamErrorPrefix ++ messageOf error))), w')
  end.
End Stream.


End ClaudeProvider.

(** ** The platform's [JSON.parse]

    ECMA-404 text to value. The text is first cut into tokens by a machine
    that reads one code unit at a time, then the tokens are assembled by a
    machine with a stack of open containers; both read their input once, left
    to right, so [parse] is total. [None] is a thrown [SyntaxError]. *)

Module JSON.

(** A number keeps its literal: sign, digits (integer and fraction digits
    read as one integer), how many of them follow the point, and the
    exponent. Its value is [mantissa * 10 ^ (exponent - fraction_digits)],
    rounded to binary64 by the engine. *)
Record NumberLiteral : Type := mkNumber {
  negative : bool;
  mantissa : Z;
  fraction_digits : Z;
  exponent : Z
}.

(** A JavaScript value that [JSON.parse] and property access can produce. *)
Inductive Value : Type :=
  | Undefined
  | Null
  | Bool (b : bool)
  | Number (n : NumberLiteral)
  | String (s : jsstring)
  | Array (items : list Value)
  | Object (members : list (jsstring * Value)).

Inductive Token : Type :=
  | TLBrace | TRBrace | TLBracket | TRBracket | TColon | TComma
  | TString (s : jsstring)
  | TNumber (n : NumberLiteral)
  | TTrue | TFalse | TNull.

Inductive NumberStage : Type :=
  | AfterMinus | AfterZero | InInt | AfterDot | InFrac
  | AfterE | AfterExpSign | InExp.

Inductive LexState : Type :=
  | LStart
  | LString (acc : jsstring)
  | LEscape (acc : jsstring)
  | LHex (acc : jsstring) (remaining : nat) (value : Z)
  | LNumber (stage : NumberStage) (neg : bool) (mant frac : Z)
      (expneg : bool) (exp : Z)
  | LLiteral (expected : jsstring) (tok : Token).

Local Open Scope Z_scope.

Definition is_ws (c : codeunit) : bool :=
  (c =? 0x20) || (c =? 0x09) || (c =? 0x0A) || (c =? 0x0D).

Definition digit (c : codeunit) : option Z :=
  if (ch "0" <=? c) && (c <=? ch "9") then Some (c - ch "0") else None.

Definition hexdigit (c : codeunit) : option Z :=
  if (ch "0" <=? c) && (c <=? ch "9") then Some (c - ch "0")
  else if (ch "a" <=? c) && (c <=? ch "f") then Some (c - ch "a" + 10)
  else if (ch "A" <=? c) && (c <=? ch "F") then Some (c - ch "A" + 10)
  else None.

(** A code unit read between tokens. *)
Definition start_step (c : codeunit) : option (LexState * list Token) :=
  if is_ws c then Some (LStart, [])
  else if c =? ch "{" then Some (LStart, [TLBrace])
  else if c =? ch "}" then Some (LStart, [TRBrace])
  else if c =? ch "[" then Some (LStart, [TLBracket])
  else if c =? ch "]" then Some (LStart, [TRBracket])
  else if c =? ch ":" then Some (LStart, [TColon])
  else if c =? ch "," then Some (LStart, [TComma])
  else if c =? 0x22 then Some (LString [], [])
  else if c =? ch "-" then Some (LNumber AfterMinus true 0 0 false 0, [])
  else if c =? ch "0" then Some (LNumber AfterZero false 0 0 false 0, [])
  else if c =? ch "t" then Some (LLiteral (js "rue") TTrue, [])
  else if c =? ch "f" then Some (LLiteral (js "alse") TFalse, [])
  else if c =? ch "n" then Some (LLiteral (js "ull") TNull, [])
  else match digit c with
       | Some d => Some (LNumber InInt false d 0 false 0, [])
       | None => None
       end.

Definition number_token (neg : bool) (mant frac : Z) (expneg : bool) (exp : Z)
    : Token :=
  TNumber (mkNumber neg mant frac (if expneg then - exp else exp)).

(** The number ends before [c]: emit it and read [c] between tokens. *)
Definition end_number (neg : bool) (mant frac : Z) (expneg : bool) (exp : Z)
    (c : codeunit) : option (LexState * list Token) :=
  match start_step c with
  | Some (st, toks) => Some (st, number_token neg mant frac expneg exp :: toks)
  | None => None
  end.

Definition is_e (c : codeunit) : bool := (c =? ch "e") || (c =? ch "E").

Definition number_step (stage : NumberStage) (neg : bool) (mant frac : Z)
    (expneg : bool) (exp : Z) (c : codeunit) : option (LexState * list Token) :=
  match stage with
  | AfterMinus =>
      match digit c with
      | Some 0 => Some (LNumber AfterZero neg 0 0 false 0, [])
      | Some d => Some (LNumber InInt neg d 0 false 0, [])
      | None => None
      end
  | AfterZero =>
      if c =? ch "." then Some (LNumber AfterDot neg mant frac expneg exp, [])
      else if is_e c then Some (LNumber AfterE neg mant frac expneg exp, [])
      else end_number neg mant frac expneg exp c
  | InInt =>
      match digit c with
      | Some d => Some (LNumber InInt neg (mant * 10 + d) frac expneg exp, [])
      | None =>
          if c =? ch "." then Some (LNumber AfterDot neg mant frac expneg exp, [])
          else if is_e c then Some (LNumber AfterE neg mant frac expneg exp, [])
          else end_number neg mant frac expneg exp c
      end
  | AfterDot =>
      match digit c with
      | Some d => Some (LNumber InFrac neg (mant * 10 + d) (frac + 1) expneg exp, [])
      | None => None
      end
  | InFrac =>
      match digit c with
      | Some d => Some (LNumber InFrac neg (mant * 10 + d) (frac + 1) expneg exp, [])
      | None =>
          if is_e c then Some (LNumber AfterE neg mant frac expneg exp, [])
          else end_number neg mant frac expneg exp c
      end
  | AfterE =>
      if c =? ch "+" then Some (LNumber AfterExpSign neg mant frac false exp, [])
      else if c =? ch "-" then Some (LNumber AfterExpSign neg mant frac true exp, [])
      else match digit c with
           | Some d => Some (LNumber InExp neg mant frac expneg d, [])
           | None => None
           end
  | AfterExpSign =>
      match digit c with
      | Some d => Some (LNumber InExp neg mant frac expneg d, [])
      | None => None
      end
  | InExp =>
      match digit c with
      | Some d => Some (LNumber InExp neg mant frac expneg (exp * 10 + d), [])
      | None => end_number neg mant frac expneg exp c
      end
  end.

(** The character an escape stands for; [\u] is handled by [LHex]. *)
Definition escape (c : codeunit) : option codeunit :=
  if c =? 0x22 then Some 0x22
  else if c =? 0x5C then Some 0x5C
  else if c =? ch "/" then Some (ch "/")
  else if c =? ch "b" then Some 0x08
  else if c =? ch "f" then Some 0x0C
  else if c =? ch "n" then Some 0x0A
  else if c =? ch "r" then Some 0x0D
  else if c =? ch "t" then Some 0x09
  else None.

Definition lex_step (st : LexState) (c : codeunit)
    : option (LexState * list Token) :=
  match st with
  | LStart => start_step c
  | LString acc =>
      if c =? 0x22 then Some (LStart, [TString (rev acc)])
      else if c =? 0x5C then Some (LEscape acc, [])
      else if c <? 0x20 then None
      else Some (LString (c :: acc), [])
  | LEscape acc =>
      if c =? ch "u" then Some (LHex acc 4 0, [])
      else match escape c with
           | Some x => Some (LString (x :: acc), [])
           | None => None
           end
  | LHex acc remaining value =>
      match hexdigit c with
      | Some h =>
          match remaining with
          | 0%nat | 1%nat => Some (LString (value * 16 + h :: acc), [])
          | S n => Some (LHex acc n (value * 16 + h), [])
          end
      | None => None
      end
  | LNumber stage neg mant frac expneg exp =>
      number_step stage neg mant frac expneg exp c
  | LLiteral expected tok =>
      match expected with
      | [] => None
      | x :: more =>
          if c =? x then
            match more with
            | [] => Some (LStart, [tok])
            | _ :: _ => Some (LLiteral more tok, [])
            end
          else None
      end
  end.

(** The end of the text. *)
Definition lex_finish (st : LexState) : option (list Token) :=
  match st with
  | LStart => Some []
  | LNumber (AfterZero | InInt | InFrac | InExp) neg mant frac expneg exp =>
      Some [number_token neg mant frac expneg exp]
  | _ => None
  end.

Fixpoint lex (st : LexState) (text : jsstring) : option (list Token) :=
  match text with
  | [] => lex_finish st
  | c :: rest =>
      match lex_step st c with
      | Some (st', toks) =>
          match lex st' rest with
          | Some more => Some (toks ++ more)
          | None => None
          end
      | None => None
      end
  end.

(** The containers still open, innermost first: an array with the items
    read so far, an object with the members read so far, a member name
    waiting for its value. The lists are in reverse order. *)
Inductive Frame : Type :=
  | FArray (items : list Value)
  | FObject (members : list (jsstring * Value))
  | FKey (key : jsstring).

Inductive Expect : Type :=
  | EValue | EFirstItem | EFirstKey | EKey | EColon | ENext
  | EEnd (v : Value).

(** A value is complete: it goes into the innermost open container. *)
Definition complete (v : Value) (stack : list Frame)
    : option (Expect * list Frame) :=
  match stack with
  | [] => Some (EEnd v, [])
  | FArray items :: below => Some (ENext, FArray (v :: items) :: below)
  | FKey key :: FObject members :: below =>
      Some (ENext, FObject ((key, v) :: members) :: below)
  | _ => None
  end.

Definition value_step (tok : Token) (stack : list Frame)
    : option (Expect * list Frame) :=
  match tok with
  | TString s => complete (String s) stack
  | TNumber n => complete (Number n) stack
  | TTrue => complete (Bool true) stack
  | TFalse => complete (Bool false) stack
  | TNull => complete Null stack
  | TLBracket => Some (EFirstItem, FArray [] :: stack)
  | TLBrace => Some (EFirstKey, FObject [] :: stack)
  | _ => None
  end.

Definition parse_step (st : Expect * list Frame) (tok : Token)
    : option (Expect * list Frame) :=
  let (expect, stack) := st in
  match expect with
  | EValue => value_step tok stack
  | EFirstItem =>
      match tok, stack with
      | TRBracket, FArray items :: below => complete (Array (rev items)) below
      | _, _ => value_step tok stack
      end
  | EFirstKey =>
      match tok, stack with
      | TRBrace, FObject members :: below => complete (Object (rev members)) below
      | TString key, _ => Some (EColon, FKey key :: stack)
      | _, _ => None
      end
  | EKey =>
      match tok with
      | TString key => Some (EColon, FKey key :: stack)
      | _ => None
      end
  | EColon =>
      match tok with
      | TColon => Some (EValue, stack)
      | _ => None
      end
  | ENext =>
      match tok, stack with
      | TComma, FArray _ :: _ => Some (EValue, stack)
      | TComma, FObject _ :: _ => Some (EKey, stack)
      | TRBracket, FArray items :: below => complete (Array (rev items)) below
      | TRBrace, FObject members :: below => complete (Object (rev members)) below
      | _, _ => None
      end
  | EEnd _ => None
  end.

Fixpoint assemble (st : Expect * list Frame) (toks : list Token)
    : option Value :=
  match toks with
  | [] => match st with (EEnd v, _) => Some v | _ => None end
  | tok :: rest =>
      match parse_step st tok with
      | Some st' => assemble st' rest
      | None => None
      end
  end.

Definition parse (text : jsstring) : option Value :=
  match lex LStart text with
  | Some toks => assemble (EValue, []) toks
  | None => None
  end.

(** An own property of an object; of two members with one name the later
    one is the property. *)
Fixpoint lookup (key : jsstring) (members : list (jsstring * Value))
    : option Value :=
  match members with
  | [] => None
  | (k, v) :: rest =>
      match lookup key rest with
      | Some later => Some later
      | None => if jsstring_eqb k key then Some v else None
      end
  end.

(** The binary64 value of the literal is zero: its digits are all zero, or
    it is at most [2 ^ -1075] and rounds to zero. *)
Definition is_zero (n : NumberLiteral) : bool :=
  let k := exponent n - fraction_digits n in
  (mantissa n =? 0) ||
  ((k <? 0) && (mantissa n * 2 ^ 1075 <=? 10 ^ (- k))).

(** [if (v)] *)
Definition truthy (v : Value) : bool :=
  match v with
  | Undefined | Null => false
  | Bool b => b
  | Number n => negb (is_zero n)
  | String s => truthy_string s
  | Array _ | Object _ => true
  end.

Definition nullish (v : Value) : bool :=
  match v with
  | Undefined | Null => true
  | _ => false
  end.

End JSON.

(** ** The platform's [TextDecoder]

    [new TextDecoder()] is the WHATWG UTF-8 decoder in replacement mode that
    drops a leading byte order mark. With [{stream: true}] it keeps an
    unfinished sequence for the next call; the text it returns is a
    JavaScript string, so a code point above U+FFFF comes out as a surrogate
    pair. *)

Module TextDecoder.

Local Open Scope Z_scope.

Record t : Type := mk {
  code_point : Z;
  bytes_seen : Z;
  bytes_needed : Z;
  lower_boundary : Z;
  upper_boundary : Z;
  bom_seen : bool
}.

Definition new : t := mk 0 0 0 0x80 0xBF false.

Definition reset (d : t) : t := mk 0 0 0 0x80 0xBF (bom_seen d).

Definition between (lo x hi : Z) : bool := (lo <=? x) && (x <=? hi).

(** A byte read when no sequence is open. *)
Definition lead (d : t) (byte : Z) : t * list Z :=
  if between 0x00 byte 0x7F then (d, [byte])
  else if between 0xC2 byte 0xDF then
    (mk (Z.land byte 0x1F) 0 1 0x80 0xBF (bom_seen d), [])
  else if between 0xE0 byte 0xEF then
    (mk (Z.land byte 0xF) 0 2
        (if byte =? 0xE0 then 0xA0 else 0x80)
        (if byte =? 0xED then 0x9F else 0xBF) (bom_seen d), [])
  else if between 0xF0 byte 0xF4 then
    (mk (Z.land byte 0x7) 0 3
        (if byte =? 0xF0 then 0x90 else 0x80)
        (if byte =? 0xF4 then 0x8F else 0xBF) (bom_seen d), [])
  else (d, [0xFFFD]).

(** The UTF-8 decoder's handler: the code points one byte gives. A byte
    that cannot continue the open sequence closes it with U+FFFD and is
    read again as a first byte. *)
Definition handler (d : t) (byte : Z) : t * list Z :=
  if bytes_needed d =? 0 then lead d byte
  else if negb (between (lower_boundary d) byte (upper_boundary d)) then
    let (d', out) := lead (reset d) byte in (d', 0xFFFD :: out)
  else
    let cp := Z.lor (Z.shiftl (code_point d) 6) (Z.land byte 0x3F) in
    if bytes_seen d + 1 =? bytes_needed d then (reset d, [cp])
    else (mk cp (bytes_seen d + 1) (bytes_needed d) 0x80 0xBF (bom_seen d), []).

(** The first code point is dropped when it is the byte order mark. *)
Fixpoint serialize (bom : bool) (points : list Z) : bool * list Z :=
  match points with
  | [] => (bom, [])
  | p :: rest =>
      if bom then let (b, out) := serialize bom rest in (b, p :: out)
      else if p =? 0xFEFF then serialize true rest
      else let (b, out) := serialize true rest in (b, p :: out)
  end.

Definition code_units (p : Z) : jsstring :=
  if p <? 0x10000 then [p]
  else [0xD800 + Z.shiftr (p - 0x10000) 10;
        0xDC00 + Z.land (p - 0x10000) 0x3FF].

(** [decoder.decode(value, { stream: true })] *)
Fixpoint decode (d : t) (value : list Byte.byte) : t * jsstring :=
  match value with
  | [] => (d, [])
  | b :: rest =>
      let (d1, points) := handler d (Z.of_N (Byte.to_N b)) in
      let (bom, kept) := serialize (bom_seen d1) points in
      let d2 := mk (code_point d1) (bytes_seen d1) (bytes_needed d1)
                  (lower_boundary d1) (upper_boundary d1) bom in
      let (d3, text) := decode d2 rest in
      (d3, flat_map code_units kept ++ text)
  end.

End TextDecoder.

(** ** deepseek.ts *)

Module DeepSeekProvider.

Local Open Scope Z_scope.

Definition convertMessages (messages : list Message.t)
    (systemPrompt : option jsstring) : list Message.t :=
  let result :=
    match systemPrompt with
    | Some text =>
        if truthy_string text then [Message.mk system text] else []
    | None => []
    end in
  fold_left
    (fun result msg =>
       result ++ [Message.mk (Message.role msg) (Message.content msg)])
    messages result.

(** *** String methods used by [streamChat] *)

(** [s.split(sep)] for a one-unit separator: never an empty array. *)
Fixpoint split (sep : codeunit) (s : jsstring) : list jsstring :=
  match s with
  | [] => [[]]
  | c :: rest =>
      if c =? sep then [] :: split sep rest
      else match split sep rest with
           | first :: others => (c :: first) :: others
           | [] => [[c]]
           end
  end.

(** [a.pop()]: the last element, and the array without it. *)
Definition pop (A : Type) (a : list A) : option A * list A :=
  match rev a with
  | [] => (None, [])
  | x :: before => (Some x, rev before)
  end.

(** White space and line terminators, which [trim] removes. *)
Definition is_space (c : codeunit) : bool :=
  (c =? 0x09) || (c =? 0x0A) || (c =? 0x0B) || (c =? 0x0C) || (c =? 0x0D) ||
  (c =? 0x20) || (c =? 0xA0) || (c =? 0x1680) ||
  ((0x2000 <=? c) && (c <=? 0x200A)) ||
  (c =? 0x2028) || (c =? 0x2029) || (c =? 0x202F) || (c =? 0x205F) ||
  (c =? 0x3000) || (c =? 0xFEFF).

Fixpoint trimStart (s : jsstring) : jsstring :=
  match s with
  | c :: rest => if is_space c then trimStart rest else s
  | [] => []
  end.

Definition trim (s : jsstring) : jsstring :=
  rev (trimStart (rev (trimStart s))).

Fixpoint startsWith (s prefix : jsstring) : bool :=
  match prefix, s with
  | [], _ => true
  | p :: prefix', c :: s' => (c =? p) && startsWith s' prefix'
  | _ :: _, [] => false
  end.

(** [s.slice(n)] for [n >= 0]. *)
Definition slice (s : jsstring) (n : nat) : jsstring := skipn n s.

(** *** Property access on a parsed chunk *)

(** The properties the source reads. None of these names is on a
    prototype, so on an array, a string, a number or a boolean a name
    gives [undefined]; [[0]] indexes an array or a string and is the member
    named 0 of an object. [None] is a thrown [TypeError]. *)
Inductive Property : Type := choices | index0 | delta | content.

Definition property_name (p : Property) : jsstring :=
  match p with
  | choices => js "choices"
  | index0 => js "0"
  | delta => js "delta"
  | content => js "content"
  end.

Definition get (v : JSON.Value) (p : Property) : option JSON.Value :=
  match v with
  | JSON.Undefined | JSON.Null => None
  | JSON.Object members =>
      match JSON.lookup (property_name p) members with
      | Some x => Some x
      | None => Some JSON.Undefined
      end
  | JSON.Array items =>
      match p, items with
      | index0, x :: _ => Some x
      | _, _ => Some JSON.Undefined
      end
  | JSON.String s =>
      match p, s with
      | index0, c :: _ => Some (JSON.String [c])
      | _, _ => Some JSON.Undefined
      end
  | JSON.Bool _ | JSON.Number _ => Some JSON.Undefined
  end.

(** [json.choices[0]?.delta?.content] *)
Definition deltaContent (json : JSON.Value) : option JSON.Value :=
  match get json choices with
  | None => None
  | Some cs =>
      match get cs index0 with
      | None => None
      | Some choice =>
          if JSON.nullish choice then Some JSON.Undefined
          else match get choice delta with
               | None => None
               | Some d =>
                   if JSON.nullish d then Some JSON.Undefined
                   else get d content
               end
      end
  end.

(** *** The read loop of [streamChat] *)

Definition DONE : jsstring := js "data: [DONE]".

(** The body of [for (const line of lines)]: what the line makes the
    generator yield, if anything. A [SyntaxError] of [JSON.parse] and a
    [TypeError] of the property chain both end in the empty [catch]. *)
Definition processLine (line : jsstring) : option JSON.Value :=
  let trimmed := trim line in
  if negb (truthy_string trimmed) || jsstring_eqb trimmed DONE then None
  else if negb (startsWith trimmed (js "data: ")) then None
  else
    match JSON.parse (slice trimmed 6) with
    | None => None
    | Some json =>
        match deltaContent json with
        | None => None
        | Some d => if JSON.truthy d then Some d else None
        end
    end.

Fixpoint processLines (lines : list jsstring) : list JSON.Value :=
  match lines with
  | [] => []
  | line :: rest =>
      match processLine line with
      | Some d => d :: processLines rest
      | None => processLines rest
      end
  end.

(** The two variables that live across iterations of [while (true)]. *)
Record Loop : Type := mkLoop {
  decoder : TextDecoder.t;
  buffer : jsstring
}.

(** One iteration that read a chunk: the new variables and the yields. *)
Definition iteration (st : Loop) (value : list Byte.byte)
    : Loop * list JSON.Value :=
  let (decoder', text) := TextDecoder.decode (decoder st) value in
  let buffer1 := buffer st ++ text in
  let (last, lines) := pop (split 10 buffer1) in
  let buffer2 := match last with
                 | Some s => if truthy_string s then s else []
                 | None => []
                 end in
  (mkLoop decoder' buffer2, processLines lines).

Fixpoint loop (st : Loop) (values : list (list Byte.byte))
    : Loop * list JSON.Value :=
  match values with
  | [] => (st, [])
  | value :: rest =>
      let (st1, out1) := iteration st value in
      let (st2, out2) := loop st1 rest in
      (st2, out1 ++ out2)
  end.

(** What [reader.read()] resolves to, call after call: the chunks, then
    either [done] or a rejection. *)
Record Reader : Type := mkReader {
  chunks : list (list Byte.byte);
  failure : option Thrown
}.

(** What [fetch] resolved to: a response that is not [ok], with the text
    [`${response.status} - ${JSON.stringify(errorData)}`] computed from it,
    or one that is, with its [body]. *)
Inductive Response : Type :=
  | NotOk (detail : jsstring)
  | Ok (body : option Reader).

Definition apiErrorPrefix : jsstring :=
  js "DeepSeek API " ++ [0x9519; 0x8BEF] ++ js ": ".

Definition streamErrorPrefix : jsstring :=
  js "DeepSeek " ++ [0x6D41; 0x5F0F; 0x9519; 0x8BEF] ++ js ": ".

Definition noBody : jsstring :=
  [0x65E0; 0x6CD5; 0x8BFB; 0x53D6; 0x54CD; 0x5E94; 0x6D41].

(** The outer [catch] of [streamChat]. *)
Definition rethrow (error : Thrown) : completion unit :=
  Throw (ErrorObject (streamErrorPrefix ++ messageOf error)).

(** [streamChat], from the point where [fetch] has settled; the state the
    loop ends in is returned beside what the consumer sees. *)
Definition streamChat_run (fetched : completion Response)
    : Drained JSON.Value * option Loop :=
  match fetched with
  | Throw error => (mkDrained [] (rethrow error), None)
  | Normal (NotOk detail) =>
      (mkDrained [] (rethrow (ErrorObject (apiErrorPrefix ++ detail))), None)
  | Normal (Ok None) => (mkDrained [] (rethrow (ErrorObject noBody)), None)
  | Normal (Ok (Some reader)) =>
      let (st, out) := loop (mkLoop TextDecoder.new []) (chunks reader) in
      (mkDrained out
         match failure reader with
         | Some error => rethrow error
         | None => Normal tt
         end,
       Some st)
  end.

Definition streamChat (fetched : completion Response) : Drained JSON.Value :=
  fst (streamChat_run fetched).

(** *** The constructor and [chat] *)

Definition defaultBaseURL : jsstring := js "https://api.deepseek.com/v1".

(** The abstract methods, around a [chat] given with the type the base class
    declares for it. *)
Definition impl {World : Type}
    (chat : ModelProvider.t -> list Message.t -> option jsstring -> World ->
            completion ModelResponse.t * World)
    : ModelProvider.Impl World :=
  {| ModelProvider.getDefaultModel := js "deepseek-chat";
     ModelProvider.getProviderName := js "DeepSeek";
     ModelProvider.chat := chat |}.

(** [super(config)], then [this.baseURL = config.baseURL || '...']. *)
Definition constructor {World : Type} {P : ModelProvider.Impl World}
    (config : ModelConfig.t) : ModelProvider.t :=
  let this := ModelProvider.constructor config in
  ModelProvider.mk (ModelProvider.apiKey this) (ModelProvider.model this)
    (ModelProvider.maxTokens this) (ModelProvider.temperature this)
    (Some (or_string (ModelConfig.baseURL config) defaultBaseURL)).

(** The arguments of [fetch]: the URL, the method, the two headers and the
    fields of the JSON body. *)
Record Request : Type := mkRequest {
  url : jsstring;
  method : jsstring;
  contentType : jsstring;
  authorization : jsstring;
  body_model : jsstring;
  body_messages : list Message.t;
  body_max_tokens : number;
  body_temperature : number;
  body_stream : bool
}.

(** [`${this.baseURL}`] *)
Definition baseURLText (this : ModelProvider.t) : jsstring :=
  match ModelProvider.baseURL this with
  | Some text => text
  | None => js "undefined"
  end.

Definition completionsRequest (this : ModelProvider.t)
    (requestMessages : list Message.t) (streaming : bool) : Request :=
  {| url := baseURLText this ++ js "/chat/completions";
     method := js "POST";
     contentType := js "application/json";
     authorization := js "Bearer " ++ ModelProvider.apiKey this;
     body_model := ModelProvider.model this;
     body_messages := requestMessages;
     body_max_tokens := ModelProvider.maxTokens this;
     body_temperature := ModelProvider.temperature this;
     body_stream := streaming |}.

(** What [fetch] resolved to in [chat]: a response that is not [ok], with
    the text [`${response.status} - ${JSON.stringify(errorData)}`], or one
    that is, with what [response.json()] settled to. *)
Inductive ChatResponse : Type :=
  | ChatNotOk (detail : jsstring)
  | ChatOk (data : completion JSON.Value).

(** The object [chat] returns. Its fields hold whatever the body had under
    the names read. *)
Record Reply : Type := mkReply {
  reply_content : JSON.Value;
  reply_model : JSON.Value;
  reply_promptTokens : JSON.Value;
  reply_completionTokens : JSON.Value;
  reply_totalTokens : JSON.Value
}.

(** [v.name] for a name that no prototype defines: a member of an object,
    [undefined] on any other value that has properties. [None] is a thrown
    [TypeError]. *)
Definition field (v : JSON.Value) (name : jsstring) : option JSON.Value :=
  match v with
  | JSON.Undefined | JSON.Null => None
  | JSON.Object members =>
      match JSON.lookup name members with
      | Some x => Some x
      | None => Some JSON.Undefined
      end
  | _ => Some JSON.Undefined
  end.

Section Chat.
Context {World : Type}.
Variable fetch : Request -> World -> completion ChatResponse * World.
(** The message of the [TypeError] for reading a property of [undefined] or
    [null], which the engine words. *)
Variable typeError : JSON.Value -> jsstring -> jsstring.

Definition read (v : JSON.Value) (name : jsstring) : completion JSON.Value :=
  match field v name with
  | Some x => Normal x
  | None => Throw (ErrorObject (typeError v name))
  end.

Definition read0 (v : JSON.Value) : completion JSON.Value :=
  match get v index0 with
  | Some x => Normal x
  | None => Throw (ErrorObject (typeError v (js "0")))
  end.

Definition andThen {A B : Type} (c : completion A) (k : A -> completion B)
    : completion B :=
  match c with
  | Normal a => k a
  | Throw e => Throw e
  end.

(** The object literal of the [return], its properties evaluated in order. *)
Definition reply (data : JSON.Value) : completion Reply :=
  andThen (read data (js "choices")) (fun cs =>
  andThen (read0 cs) (fun choice =>
  andThen (read choice (js "message")) (fun message =>
  andThen (read message (js "content")) (fun text =>
  andThen (read data (js "model")) (fun model =>
  andThen (read data (js "usage")) (fun usage1 =>
  andThen (read usage1 (js "prompt_tokens")) (fun promptTokens =>
  andThen (read data (js "usage")) (fun usage2 =>
  andThen (read usage2 (js "completion_tokens")) (fun completionTokens =>
  andThen (read data (js "usage")) (fun usage3 =>
  andThen (read usage3 (js "total_tokens")) (fun totalTokens =>
  Normal (mkReply text model promptTokens completionTokens totalTokens)))))))))))).

(** The [catch] of [chat]. *)
Definition chatError (error : Thrown) : Thrown :=
  ErrorObject (apiErrorPrefix ++ messageOf error).

Definition chat (this : ModelProvider.t) (messages : list Message.t)
    (systemPrompt : option jsstring) (w : World) : completion Reply * World :=
  let requestMessages := convertMessages messages systemPrompt in
  match fetch (completionsRequest this requestMessages false) w with
  | (Throw error, w') => (Throw (chatError error), w')
  | (Normal (ChatNotOk detail), w') =>
      (Throw (chatError (ErrorObject (apiErrorPrefix ++ detail))), w')
  | (Normal (ChatOk (Throw error)), w') => (Throw (chatError error), w')
  | (Normal (ChatOk (Normal data)), w') =>
      (match reply data with
       | Normal r => Normal r
       | Throw error => Throw (chatError error)
       end, w')
  end.
End Chat.


End DeepSeekProvider.

(** ** factory.ts *)

Module ProviderFactory.

(** An instance of one of the two provider classes. *)
Inductive Provider : Type :=
  | Claude (this : ModelProvider.t)
  | DeepSeek (this : ModelProvider.t).

Definition fields (p : Provider) : ModelProvider.t :=
  match p with
  | Claude this => this
  | DeepSeek this => this
  end.

Record Info : Type := mkInfo {
  name : jsstring;
  defaultModel : jsstring;
  description : jsstring
}.

Definition unsupported : jsstring :=
  [0x4E0D; 0x652F; 0x6301; 0x7684; 0x6A21; 0x578B; 0x63D0; 0x4F9B; 0x5546]%Z
  ++ js ": ".

Definition getSupportedProviders : list jsstring :=
  [js "claude"; js "deepseek"].

(** [Array.prototype.includes] on strings. *)
Definition isSupported (type : jsstring) : bool :=
  existsb (jsstring_eqb type) getSupportedProviders.

(** The object [getProviderInfo] returns, as its own properties in order. *)
Definition getProviderInfo : list (jsstring * Info) :=
  [(js "claude",
    {| name := js "Claude";
       defaultModel := js "claude-sonnet-4-5-20250929";
       description :=
         js "Anthropic Claude - " ++
         [0x64C5; 0x957F; 0x590D; 0x6742; 0x63A8; 0x7406; 0x3001; 0x957F;
          0x6587; 0x672C; 0x5904; 0x7406; 0x548C; 0x4EE3; 0x7801; 0x751F;
          0x6210]%Z |});
   (js "deepseek",
    {| name := js "DeepSeek";
       defaultModel := js "deepseek-chat";
       description :=
         js "DeepSeek - " ++
         [0x56FD; 0x4EA7; 0x5927; 0x6A21; 0x578B; 0xFF0C; 0x4E2D; 0x6587;
          0x7406; 0x89E3; 0x80FD; 0x529B; 0x5F3A; 0xFF0C; 0x6210; 0x672C;
          0x4F4E]%Z |})].

(** [getProviderInfo()[type]] for a supported [type]. *)
Fixpoint infoOf (type : jsstring) (table : list (jsstring * Info))
    : option Info :=
  match table with
  | [] => None
  | (key, info) :: rest =>
      if jsstring_eqb key type then Some info else infoOf type rest
  end.

Section Factory.
Context {World : Type}.
(** The remote calls of the two classes. *)
Variable create :
  ClaudeProvider.CreateParams.t -> World -> completion ClaudeProvider.Reply * World.
Variable deepseekChat :
  ModelProvider.t -> list Message.t -> option jsstring -> World ->
  completion ModelResponse.t * World.

(** The class of an instance, as the methods it dispatches to. *)
Definition implOf (p : Provider) : ModelProvider.Impl World :=
  match p with
  | Claude _ => ClaudeProvider.impl create
  | DeepSeek _ => DeepSeekProvider.impl deepseekChat
  end.

Definition createProvider (type : jsstring) (config : ModelConfig.t)
    : completion Provider :=
  if jsstring_eqb type (js "claude") then
    Normal (Claude (ModelProvider.constructor (P := ClaudeProvider.impl create) config))
  else if jsstring_eqb type (js "deepseek") then
    Normal (DeepSeek
              (DeepSeekProvider.constructor
                 (P := DeepSeekProvider.impl deepseekChat) config))
  else Throw (ErrorObject (unsupported ++ type)).

Definition dummyConfig : ModelConfig.t :=
  ModelConfig.mk (js "dummy") None None None None.

Definition getDefaultModel (type : jsstring) : completion jsstring :=
  match createProvider type dummyConfig with
  | Normal provider =>
      Normal (ModelProvider.getDefaultModel (Impl := implOf provider))
  | Throw error => Throw error
  end.

(** [provider.getConfig()] *)
Definition getConfig (p : Provider) : ModelProvider.Config :=
  ModelProvider.getConfig (P := implOf p) (fields p).
End Factory.

End ProviderFactory.


(** ** agent.ts *)

Module NovelAgent.

Record t : Type := mk {
  provider : ModelProvider.t;
  conversationHistory : list Message.t;
  systemPrompt : jsstring
}.

Section Methods.
Context {World : Type} {P : ModelProvider.Impl World}.

(** The text [buildSystemPrompt] returns: a constant of the source. *)
Variable buildSystemPrompt : jsstring.

(** A method of the agent: it reads and leaves the agent and the world,
    and returns or throws. A throw keeps the state reached so far. *)
Definition M (A : Type) : Type :=
  t * World -> completion A * (t * World).

Definition ret {A : Type} (a : A) : M A := fun s => (Normal a, s).

Definition bind {A B : Type} (c : M A) (k : A -> M B) : M B :=
  fun s =>
    match c s with
    | (Normal a, s') => k a s'
    | (Throw e, s') => (Throw e, s')
    end.

Definition throw {A : Type} (e : Thrown) : M A := fun s => (Throw e, s).

Definition tryCatch {A : Type} (c : M A) (handler : Thrown -> M A) : M A :=
  fun s =>
    match c s with
    | (Normal a, s') => (Normal a, s')
    | (Throw e, s') => handler e s'
    end.

Notation "x <- c ;; k" := (bind c (fun x => k))
  (at level 61, c at next level, right associativity).
Notation "c ;; k" := (bind c (fun _ => k))
  (at level 61, right associativity).

(** [this.conversationHistory.push(msg)] *)
Definition push (msg : Message.t) : M unit :=
  fun '(this, w) =>
    (Normal tt,
     (mk (provider this) (conversationHistory this ++ [msg])
         (systemPrompt this), w)).

(** [this.provider.chat(this.conversationHistory, this.systemPrompt)].
    The provider receives the history array itself; the providers of this
    repository only read it. *)
Definition provider_chat : M ModelResponse.t :=
  fun '(this, w) =>
    let (r, w') :=
      ModelProvider.chat (provider this) (conversationHistory this)
        (Some (systemPrompt this)) w in
    (r, (this, w')).

Definition constructor (config : ModelConfig.t) : t :=
  {| provider := ModelProvider.constructor config;
     conversationHistory := [];
     systemPrompt := buildSystemPrompt |}.

Definition chat (userMessage : jsstring) : M jsstring :=
  push (Message.mk user userMessage) ;;
  tryCatch
    (response <- provider_chat ;;
     push (Message.mk assistant (ModelResponse.content response)) ;;
     ret (ModelResponse.content response))
    (fun error => throw error).

Definition clearHistory : M unit :=
  fun '(this, w) =>
    (Normal tt, (mk (provider this) [] (systemPrompt this), w)).

Definition getHistory (this : t) : list Message.t :=
  conversationHistory this.

(** A caller that submits the texts one after the other and, like the
    interactive session, catches what a submit throws and goes on. *)
Fixpoint submitAll (texts : list jsstring) (s : t * World)
    : list (completion jsstring) * (t * World) :=
  match texts with
  | [] => ([], s)
  | text :: rest =>
      let (r, s1) := chat text s in
      let (rs, s2) := submitAll rest s1 in
      (r :: rs, s2)
  end.

(** [`当前使用: ${config.provider} - ${config.model}`] *)
Definition getModelInfo (this : t) : jsstring :=
  let config := ModelProvider.getConfig (provider this) in
  [0x5F53; 0x524D; 0x4F7F; 0x7528]%Z ++ js ": " ++
  ModelProvider.config_provider config ++ js " - " ++
  ModelProvider.config_model config.

(** *** [startInteractiveSession]

    What the session does to the terminal and the process: [console.log],
    [process.stdout.write], [rl.prompt()] and [process.exit]. Lines are
    handled one after the other, each to its end before the next. *)
Inductive Effect : Type :=
  | Log (text : jsstring)
  | Write (text : jsstring)
  | Prompt
  | Exit (code : Z).


Definition goodbye : jsstring :=
  [0x000A; 0xD83D; 0xDC4B]%Z ++ js " " ++
  [0x518D; 0x89C1; 0xFF01; 0x795D; 0x521B; 0x4F5C; 0x6109; 0x5FEB; 0xFF01]%Z.

Definition cleared : jsstring :=
  [0x2728]%Z ++ js " " ++ [0x5BF9; 0x8BDD; 0x5386; 0x53F2; 0x5DF2; 0x6E05; 0x7A7A]%Z.

Definition historyHeader : jsstring :=
  [0x000A; 0xD83D; 0xDCDC]%Z ++ js " " ++ [0x5BF9; 0x8BDD; 0x5386; 0x53F2]%Z ++ js ":".

Definition infoPrefix : jsstring := [0x000A; 0xD83D; 0xDCCA]%Z ++ js " ".

Definition thinking : jsstring :=
  [0x000A; 0xD83D; 0xDCAD]%Z ++ js " " ++ [0x601D; 0x8003; 0x4E2D]%Z ++ js "..." ++
  [0x000A; 0x000A]%Z.

Definition ended : jsstring :=
  [0x000A; 0xD83D; 0xDC4B]%Z ++ js " " ++ [0x4F1A; 0x8BDD; 0x7ED3; 0x675F]%Z.

(** A non-negative integer in a template literal. *)
Fixpoint digits (u : Decimal.uint) : jsstring :=
  match u with
  | Decimal.Nil => []
  | Decimal.D0 u' => ch "0" :: digits u'
  | Decimal.D1 u' => ch "1" :: digits u'
  | Decimal.D2 u' => ch "2" :: digits u'
  | Decimal.D3 u' => ch "3" :: digits u'
  | Decimal.D4 u' => ch "4" :: digits u'
  | Decimal.D5 u' => ch "5" :: digits u'
  | Decimal.D6 u' => ch "6" :: digits u'
  | Decimal.D7 u' => ch "7" :: digits u'
  | Decimal.D8 u' => ch "8" :: digits u'
  | Decimal.D9 u' => ch "9" :: digits u'
  end.

Definition decimal (n : nat) : jsstring := digits (Nat.to_uint n).

Definition roleText (r : Role) : jsstring :=
  match r with
  | user => js "user"
  | assistant => js "assistant"
  | system => js "system"
  end.

(** The [forEach] of [/history], from index [idx] on. *)
Fixpoint printHistory (idx : nat) (messages : list Message.t) : list Effect :=
  match messages with
  | [] => []
  | msg :: rest =>
      Log ([0x0A; 0x5B]%Z ++ decimal (idx + 1) ++ js "] " ++
           roleText (Message.role msg) ++ js ":")
      :: Log (Message.content msg)
      :: printHistory (idx + 1) rest
  end.

(** The listener of ['line']. [rl.close()] runs the listener of ['close'],
    which ends the process, so nothing after it is reached. *)
Definition onLine (line : jsstring) (s : t * World)
    : list Effect * (t * World) :=
  let input := DeepSeekProvider.trim line in
  if jsstring_eqb input (js "/quit") || jsstring_eqb input (js "/exit") then
    ([Log goodbye; Log ended; Exit 0], s)
  else if jsstring_eqb input (js "/clear") then
    ([Log cleared; Prompt], snd (clearHistory s))
  else if jsstring_eqb input (js "/history") then
    (Log historyHeader :: printHistory 0 (conversationHistory (fst s)) ++ [Prompt],
     s)
  else if jsstring_eqb input (js "/info") then
    ([Log (infoPrefix ++ getModelInfo (fst s)); Prompt], s)
  else if negb (truthy_string input) then ([Prompt], s)
  else
    match chat input s with
    | (Normal response, s') =>
        ([Write thinking; Log (js "Agent> " ++ response); Prompt], s')
    | (Throw error, s') => ([Write thinking; Prompt], s')
    end.

Definition exits (effects : list Effect) : bool :=
  existsb (fun e => match e with Exit _ => true | _ => false end) effects.


End Methods.

(** The argument of the constructor. *)
Module AgentConfig.
Record t : Type := mk {
  provider : jsstring;
  apiKey : jsstring;
  model : option jsstring;
  maxTokens : option number;
  temperature : option number;
  baseURL : option jsstring
}.
End AgentConfig.

Section New.
Context {World : Type}.
Variable create :
  ClaudeProvider.CreateParams.t -> World -> completion ClaudeProvider.Reply * World.
Variable deepseekChat :
  ModelProvider.t -> list Message.t -> option jsstring -> World ->
  completion ModelResponse.t * World.
Variable buildSystemPrompt : jsstring.

(** [new NovelAgent(config)], with the factory choosing the class: the
    instance created and the agent around its fields. *)
Definition new (config : AgentConfig.t)
    : completion (ProviderFactory.Provider * t) :=
  match ProviderFactory.createProvider create deepseekChat
          (AgentConfig.provider config)
          (ModelConfig.mk (AgentConfig.apiKey config) (AgentConfig.model config)
             (AgentConfig.maxTokens config) (AgentConfig.temperature config)
             (AgentConfig.baseURL config)) with
  | Normal p => Normal (p, mk (ProviderFactory.fields p) [] buildSystemPrompt)
  | Throw error => Throw error
  end.
End New.


End NovelAgent.

(** ** Responses and values used in the statements and examples *)

(** An ASCII literal with each apostrophe read as a double quote. *)
Definition quoted (s : string) : string :=
  string_of_list_ascii
    (map (fun a => if Ascii.eqb a "'" then ascii_of_nat 34 else a)
       (list_ascii_of_string s)).

(** The bytes of a line, with the newline that ends it. *)
Definition line (s : string) : list Byte.byte :=
  list_byte_of_string (quoted s) ++ [Byte.x0a].

Definition hi : string := "data: {'choices':[{'delta':{'content':'Hi'}}]}".

(** A successful response whose body is read through [reader]. *)
Definition reading (reader : DeepSeekProvider.Reader)
    : completion DeepSeekProvider.Response :=
  Normal (DeepSeekProvider.Ok (Some reader)).

(** A body that delivers the chunks and then reports [done]. *)
Definition stream (values : list (list Byte.byte))
    : completion DeepSeekProvider.Response :=
  reading (DeepSeekProvider.mkReader values None).

(** A provider for the examples. Its world is the number of calls made so
    far; it answers the last message by putting [re: ] before it, and throws
    when that message is empty. *)
Definition exampleChat (this : ModelProvider.t) (messages : list Message.t)
    (systemPrompt : option jsstring) (calls : nat)
    : completion ModelResponse.t * nat :=
  match Message.content (last messages (Message.mk user [])) with
  | [] => (Throw (ErrorObject (js "empty message")), S calls)
  | text =>
      (Normal {| ModelResponse.content := js "re: " ++ text;
                 ModelResponse.model := ModelProvider.model this;
                 ModelResponse.usage := None |},
       S calls)
  end.

Definition exampleImpl : ModelProvider.Impl nat :=
  {| ModelProvider.getDefaultModel := js "example-model";
     ModelProvider.getProviderName := js "Example";
     ModelProvider.chat := exampleChat |}.

Definition exampleConfig : ModelConfig.t :=
  {| ModelConfig.apiKey := js "key";
     ModelConfig.model := None;
     ModelConfig.maxTokens := Some 0%float;
     ModelConfig.temperature := Some 0%float;
     ModelConfig.baseURL := None |}.

(** ** Vocabulary of the statements about the session *)

Definition succeeded (A : Type) (r : completion A) : Prop :=
  exists a, r = Normal a.

(** The history that submitting [texts] and receiving [replies] builds. *)
Fixpoint turns (texts replies : list jsstring) : list Message.t :=
  match texts, replies with
  | text :: texts', reply :: replies' =>
      Message.mk user text :: Message.mk assistant reply :: turns texts' replies'
  | _, _ => []
  end.

(** ** Vocabulary of the statements about the read loop *)

(** The text the decoder has produced once all chunks are read. *)
Definition decoded (values : list (list Byte.byte)) : jsstring :=
  snd (TextDecoder.decode TextDecoder.new (concat values)).

(** The lines of a text that a newline has completed, and what follows the
    last newline. *)
Definition completeLines (text : jsstring) : list jsstring :=
  removelast (DeepSeekProvider.split 10%Z text).

Definition carryover (text : jsstring) : jsstring :=
  last (DeepSeekProvider.split 10%Z text) [].

(** A text that is empty or ends with a newline. *)
Definition endsLines (text : jsstring) : Prop :=
  text = [] \/ exists before, text = before ++ [10%Z].

(** ** Vocabulary of the further statements *)

(** The values of the calls that returned. *)
Fixpoint successes (A : Type) (results : list (completion A)) : list A :=
  match results with
  | [] => []
  | Normal a :: rest => a :: successes rest
  | Throw _ :: rest => successes rest
  end.

(** The messages of a history that have a given role. *)
Definition withRole (r : Role) (history : list Message.t) : list Message.t :=
  filter (fun msg => Role_eqb (Message.role msg) r) history.

(** The inputs the interactive session handles itself. *)
Definition commands : list jsstring :=
  [js "/quit"; js "/exit"; js "/clear"; js "/history"; js "/info"].


(** ** Vocabulary of the statements about bytes and characters *)

Section ByteVocabulary.
Local Open Scope Z_scope.

(** The newline code units of a text, and the newline bytes of a stream. *)
Definition newlines (text : list Z) : nat := count_occ Z.eq_dec text 10.

Definition newlineBytes (bytes : list Byte.byte) : nat :=
  count_occ Stdlib.Strings.Byte.byte_eq_dec bytes Byte.x0a.

(** What holds of the decoder after any bytes: the bounds of the next byte
    are continuation bytes, and an open sequence has either a significant
    bit already or a raised lower bound and two bytes to come, so that the
    code point it ends in is not one a single byte would have given. *)
Definition sound (d : TextDecoder.t) : Prop :=
  0x80 <= TextDecoder.lower_boundary d /\
  TextDecoder.upper_boundary d <= 0xBF /\
  0 <= TextDecoder.code_point d /\
  (TextDecoder.bytes_needed d = 0 \/
   (TextDecoder.bytes_seen d < TextDecoder.bytes_needed d /\
    (1 <= TextDecoder.code_point d \/
     (0x90 <= TextDecoder.lower_boundary d /\
      TextDecoder.bytes_seen d + 2 <= TextDecoder.bytes_needed d)))).

(** The decoder between two characters, once the first has been read. *)
Definition idle : TextDecoder.t := TextDecoder.mk 0 0 0 0x80 0xBF true.

(** The byte of a value below 256. *)
Definition byteOf (x : Z) : Byte.byte :=
  match Byte.of_N (Z.to_N x) with
  | Some b => b
  | None => Byte.x00
  end.

(** The UTF-8 encoding of a code point, for the code points that have one. *)
Definition utf8 (p : Z) : list Byte.byte :=
  if p <? 0x80 then [byteOf p]
  else if p <? 0x800 then [byteOf (0xC0 + p / 64); byteOf (0x80 + p mod 64)]
  else if p <? 0x10000 then
    [byteOf (0xE0 + p / 4096); byteOf (0x80 + (p / 64) mod 64);
     byteOf (0x80 + p mod 64)]
  else
    [byteOf (0xF0 + p / 262144); byteOf (0x80 + (p / 4096) mod 64);
     byteOf (0x80 + (p / 64) mod 64); byteOf (0x80 + p mod 64)].

Definition scalar (p : Z) : Prop :=
  0 <= p < 0xD800 \/ 0xDFFF < p <= 0x10FFFF.

(** A character that a JSON string holds as it is: no control character,
    quote or backslash. *)
Definition plain (c : Z) : Prop := 0x20 <= c /\ c <> 0x22 /\ c <> 0x5C.

(** The tokens [JSON.lex] has made of a part of the text, and the state it
    is in at its end. *)
Fixpoint lexRun (st : JSON.LexState) (text : list Z)
    : option (JSON.LexState * list JSON.Token) :=
  match text with
  | [] => Some (st, [])
  | c :: rest =>
      match JSON.lex_step st c with
      | Some (st', toks) =>
          match lexRun st' rest with
          | Some (st'', more) => Some (st'', toks ++ more)
          | None => None
          end
      | None => None
      end
  end.

(** The line of a chunk whose content delta is [body]. *)
Definition contentPrefix : string := "data: {'choices':[{'delta':{'content':'".
Definition contentSuffix : string := "'}}]}".

Definition contentLine (body : list Z) : list Z :=
  js (quoted contentPrefix) ++ body ++ js (quoted contentSuffix).
End ByteVocabulary.

(** * Properties *)

(** ** Lists and strings *)

Section SplitFacts.
Import DeepSeekProvider.
Variable sep : codeunit.

Lemma split_not_nil (s : jsstring) : split sep s <> [].
Proof.
  destruct s as [|c s]; simpl; [discriminate|].
  destruct (Z.eqb c sep); [discriminate|].
  destruct (split sep s); discriminate.
Qed.

Lemma split_cons_sep (s : jsstring) : split sep (sep :: s) = [] :: split sep s.
Proof. simpl. now rewrite Z.eqb_refl. Qed.

Lemma split_cons_other (c : codeunit) (s : jsstring) :
  c <> sep ->
  exists first others,
    split sep s = first :: others /\ split sep (c :: s) = (c :: first) :: others.
Proof.
  intros Hc. simpl. apply Z.eqb_neq in Hc. rewrite Hc.
  destruct (split sep s) as [|first others] eqn:E.
  - now destruct (split_not_nil s).
  - now exists first, others.
Qed.

(** A text without the separator is one piece. *)
Lemma split_free (s : jsstring) : ~ In sep s -> split sep s = [s].
Proof.
  induction s as [|c s IH]; intros Hs; [reflexivity|].
  assert (Hc : c <> sep) by (intros ->; apply Hs; now left).
  destruct (split_cons_other s Hc) as (first & others & E & ->).
  rewrite IH in E by (intros H; apply Hs; now right).
  now inversion E.
Qed.

(** A piece that the separator ends is split off. *)
Lemma split_piece (piece rest : jsstring) :
  ~ In sep piece -> split sep (piece ++ sep :: rest) = piece :: split sep rest.
Proof.
  induction piece as [|c piece IH]; intros Hs.
  - apply split_cons_sep.
  - assert (Hc : c <> sep) by (intros ->; apply Hs; now left).
    rewrite <- app_comm_cons.
    destruct (split_cons_other (piece ++ sep :: rest) Hc)
      as (first & others & E & ->).
    rewrite IH in E by (intros H; apply Hs; now right).
    now inversion E.
Qed.

(** Splitting a text received in two parts. *)
Lemma split_app (a b : jsstring) :
  split sep (a ++ b) =
  removelast (split sep a) ++ split sep (last (split sep a) [] ++ b).
Proof.
  induction a as [|c a IH]; [reflexivity|].
  rewrite <- app_comm_cons. destruct (Z.eq_dec c sep) as [->|Hc].
  - rewrite !split_cons_sep, IH.
    destruct (split sep a) as [|p ps] eqn:E; [now destruct (split_not_nil a)|].
    reflexivity.
  - destruct (split_cons_other (a ++ b) Hc) as (f1 & o1 & E1 & ->).
    destruct (split_cons_other a Hc) as (f2 & o2 & E2 & ->).
    rewrite IH, E2 in E1.
    destruct o2 as [|p ps].
    + cbn [removelast last app] in *.
      destruct (split_cons_other (f2 ++ b) Hc) as (f3 & o3 & E3 & E4).
      rewrite E4. rewrite E3 in E1. now inversion E1.
    + simpl in E1. inversion E1; subst. reflexivity.
Qed.

Lemma last_split_free (s : jsstring) : ~ In sep (last (split sep s) []).
Proof.
  induction s as [|c s IH]; [intros []|].
  destruct (Z.eq_dec c sep) as [->|Hc].
  - rewrite split_cons_sep.
    destruct (split sep s) as [|p ps] eqn:E; [now destruct (split_not_nil s)|].
    exact IH.
  - destruct (split_cons_other s Hc) as (first & others & E & ->).
    rewrite E in IH. destruct others as [|p ps].
    + simpl in *. intros [H|H]; [congruence | now apply IH].
    + exact IH.
Qed.
End SplitFacts.

Lemma last_app_nonempty (A : Type) (l l' : list A) (d : A) :
  l' <> [] -> last (l ++ l') d = last l' d.
Proof.
  intros H. induction l as [|x l IH]; [reflexivity|].
  simpl. rewrite IH. destruct (l ++ l') eqn:E; [|reflexivity].
  apply app_eq_nil in E. now destruct H.
Qed.

(** ** The read loop as a function of the decoded text *)

Section LoopFacts.
Import DeepSeekProvider.
Local Open Scope Z_scope.

Lemma pop_snoc (A : Type) (l : list A) (x : A) : pop (l ++ [x]) = (Some x, l).
Proof. unfold pop. now rewrite rev_unit, rev_involutive. Qed.

Lemma pop_split (text : jsstring) :
  pop (split 10 text) = (Some (carryover text), completeLines text).
Proof.
  unfold carryover, completeLines.
  rewrite (app_removelast_last [] (split_not_nil 10 text)) at 1.
  apply pop_snoc.
Qed.

Lemma completeLines_app (a b : jsstring) :
  completeLines (a ++ b) = completeLines a ++ completeLines (carryover a ++ b).
Proof.
  unfold completeLines, carryover. rewrite split_app.
  apply removelast_app, split_not_nil.
Qed.

Lemma carryover_app (a b : jsstring) :
  carryover (a ++ b) = carryover (carryover a ++ b).
Proof.
  unfold carryover. rewrite split_app.
  apply last_app_nonempty, split_not_nil.
Qed.

Lemma completeLines_free (s : jsstring) : ~ In 10%Z s -> completeLines s = [].
Proof. intros H. unfold completeLines. now rewrite split_free. Qed.

Lemma carryover_free (s : jsstring) : ~ In 10%Z s -> carryover s = s.
Proof. intros H. unfold carryover. now rewrite split_free. Qed.

Lemma carryover_is_free (s : jsstring) : ~ In 10%Z (carryover s).
Proof. apply last_split_free. Qed.

Lemma completeLines_line (l rest : jsstring) :
  ~ In 10%Z l -> completeLines (l ++ 10%Z :: rest) = l :: completeLines rest.
Proof.
  intros H. unfold completeLines. rewrite split_piece by assumption.
  destruct (split 10 rest) eqn:E; [now destruct (split_not_nil 10 rest)|].
  reflexivity.
Qed.

Lemma carryover_endsLines (text : jsstring) : endsLines text -> carryover text = [].
Proof.
  intros [->|[before ->]]; [reflexivity|].
  rewrite carryover_app.
  unfold carryover at 1.
  rewrite split_piece by apply carryover_is_free. reflexivity.
Qed.

(** After a text that ends its lines, the lines that follow are those of
    the rest alone. *)
Lemma completeLines_after (a b : jsstring) :
  endsLines a -> completeLines (a ++ b) = completeLines a ++ completeLines b.
Proof.
  intros H. now rewrite completeLines_app, (carryover_endsLines H).
Qed.

Lemma carryover_after (a b : jsstring) :
  endsLines a -> carryover (a ++ b) = carryover b.
Proof.
  intros H. now rewrite carryover_app, (carryover_endsLines H).
Qed.

Lemma processLines_app (a b : list jsstring) :
  processLines (a ++ b) = processLines a ++ processLines b.
Proof.
  induction a as [|l a IH]; [reflexivity|].
  simpl. destruct (processLine l); simpl; now rewrite IH.
Qed.

(** Decoding is the same whether the bytes come in one call or in two. *)
Lemma decode_app (a b : list Byte.byte) (d : TextDecoder.t) :
  TextDecoder.decode d (a ++ b) =
  let (d1, t1) := TextDecoder.decode d a in
  let (d2, t2) := TextDecoder.decode d1 b in
  (d2, t1 ++ t2).
Proof.
  revert d. induction a as [|x a IH]; intros d.
  - simpl. now destruct (TextDecoder.decode d b).
  - simpl.
    destruct (TextDecoder.handler d (Z.of_N (Byte.to_N x))) as [d1 points].
    destruct (TextDecoder.serialize (TextDecoder.bom_seen d1) points)
      as [bom kept].
    rewrite IH.
    destruct (TextDecoder.decode _ a) as [d3 t3].
    destruct (TextDecoder.decode d3 b) as [d4 t4].
    now rewrite app_assoc.
Qed.

Lemma iteration_spec (d : TextDecoder.t) (buf : jsstring)
    (value : list Byte.byte) :
  iteration (mkLoop d buf) value =
  let (d', text) := TextDecoder.decode d value in
  (mkLoop d' (carryover (buf ++ text)),
   processLines (completeLines (buf ++ text))).
Proof.
  unfold iteration. simpl.
  destruct (TextDecoder.decode d value) as [d' text].
  rewrite pop_split.
  now destruct (carryover (buf ++ text)).
Qed.

(** The loop yields what the completed lines of the whole text yield, and
    ends with the unfinished last line in [buffer]. *)
Lemma loop_spec (values : list (list Byte.byte)) :
  forall (d : TextDecoder.t) (buf : jsstring),
    ~ In 10%Z buf ->
    loop (mkLoop d buf) values =
    let (d', text) := TextDecoder.decode d (concat values) in
    (mkLoop d' (carryover (buf ++ text)),
     processLines (completeLines (buf ++ text))).
Proof.
  induction values as [|value values IH]; intros d buf Hbuf.
  - simpl. rewrite app_nil_r.
    now rewrite carryover_free, completeLines_free.
  - simpl. rewrite iteration_spec, decode_app.
    destruct (TextDecoder.decode d value) as [d1 t1].
    rewrite IH by apply carryover_is_free.
    destruct (TextDecoder.decode d1 (concat values)) as [d2 t2].
    rewrite app_assoc.
    rewrite (completeLines_app (buf ++ t1)), (carryover_app (buf ++ t1)).
    now rewrite processLines_app.
Qed.

Lemma streamChat_run_spec (values : list (list Byte.byte))
    (failure : option Thrown) :
  streamChat_run (Normal (Ok (Some (mkReader values failure)))) =
  (mkDrained (processLines (completeLines (decoded values)))
     match failure with
     | Some error => rethrow error
     | None => Normal tt
     end,
   Some (mkLoop (fst (TextDecoder.decode TextDecoder.new (concat values)))
           (carryover (decoded values)))).
Proof.
  unfold streamChat_run, decoded. simpl.
  rewrite loop_spec by (intros []).
  now destruct (TextDecoder.decode TextDecoder.new (concat values)).
Qed.
End LoopFacts.

(** ** The streaming decoder of the DeepSeek adapter *)

Section StreamFacts.
Import DeepSeekProvider.
Local Open Scope Z_scope.

Lemma streamChat_spec (values : list (list Byte.byte)) (failure : option Thrown) :
  streamChat (reading (mkReader values failure)) =
  mkDrained (processLines (completeLines (decoded values)))
    match failure with
    | Some error => rethrow error
    | None => Normal tt
    end.
Proof. unfold streamChat, reading. now rewrite streamChat_run_spec. Qed.

(** The fragments depend on the chunks only through the bytes they make up. *)
Lemma streamChat_chunking (values values' : list (list Byte.byte))
    (failure : option Thrown) :
  concat values = concat values' ->
  streamChat (reading (mkReader values failure)) =
  streamChat (reading (mkReader values' failure)).
Proof.
  intros H. rewrite !streamChat_spec. unfold decoded. now rewrite H.
Qed.

(** A completed line that yields nothing can be taken out of the text. *)
Lemma skipped_line (pre l post : jsstring) :
  endsLines pre -> ~ In 10 l -> processLine l = None ->
  processLines (completeLines (pre ++ l ++ 10 :: post)) =
  processLines (completeLines (pre ++ post)).
Proof.
  intros Hpre Hl Hnone.
  rewrite !(completeLines_after _ Hpre), !processLines_app.
  rewrite completeLines_line by assumption.
  simpl. now rewrite Hnone.
Qed.

Lemma streamChat_skipped_line (values values' : list (list Byte.byte))
    (failure : option Thrown) (pre l post : jsstring) :
  decoded values = pre ++ l ++ 10 :: post ->
  decoded values' = pre ++ post ->
  endsLines pre -> ~ In 10 l -> processLine l = None ->
  streamChat (reading (mkReader values failure)) =
  streamChat (reading (mkReader values' failure)).
Proof.
  intros E E' Hpre Hl Hnone. rewrite !streamChat_spec, E, E'.
  now rewrite skipped_line.
Qed.

Lemma processLine_DONE (l : jsstring) : trim l = DONE -> processLine l = None.
Proof. intros H. unfold processLine. rewrite H. reflexivity. Qed.

Lemma processLine_malformed (l : jsstring) :
  JSON.parse (slice (trim l) 6) = None -> processLine l = None.
Proof.
  intros H. unfold processLine. rewrite H.
  destruct (negb (truthy_string (trim l)) || jsstring_eqb (trim l) DONE);
    [reflexivity|].
  now destruct (negb (startsWith (trim l) (js "data: "))).
Qed.

(** What single lines do. *)
Example parse_accepts :
  JSON.parse (js (quoted "{'choices':[{'delta':{'content':'Hi'}}]}")) =
  Some (JSON.Object
          [(js "choices",
            JSON.Array
              [JSON.Object
                 [(js "delta", JSON.Object [(js "content", JSON.String (js "Hi"))])]])]).
Proof. vm_compute. reflexivity. Qed.

Example parse_rejects :
  JSON.parse (js "{bad") = None /\ JSON.parse (js "[1,]") = None /\
  JSON.parse (js "01") = None /\ JSON.parse (js "[DONE]") = None /\
  JSON.parse [] = None.
Proof. vm_compute. repeat split. Qed.

Example line_with_delta :
  processLine (js (quoted "  data: {'choices':[{'delta':{'content':'Hi'}}]} ")) =
  Some (JSON.String (js "Hi")).
Proof. vm_compute. reflexivity. Qed.

Example line_without_delta :
  processLine (js (quoted "data: {'choices':[{'delta':{'role':'assistant'}}]}")) = None /\
  processLine (js (quoted "data: {'choices':[{'delta':{'content':''}}]}")) = None /\
  processLine (js (quoted "data: {'choices':[]}")) = None /\
  processLine (js (quoted "data: {'id':1}")) = None /\
  processLine (js ": keep-alive") = None /\
  processLine (js "data: [DONE]") = None /\
  processLine [13] = None.
Proof. vm_compute. repeat split. Qed.
End StreamFacts.

Section StreamClaims.
Import DeepSeekProvider.
Local Open Scope Z_scope.

(** C2. The fragments [streamChat] of the DeepSeek adapter yields depend on
  the bytes of the stream and not on how they are cut into partial reads:
  two sequences of reads that carry the same bytes, ending the same way,
  give the same drained generator. In particular the complete line
  [data: {"choices":[{"delta":{"content":"Hi"}}]}], newline included,
  delivered in two reads cut at any position [n], yields the fragment
  ["Hi"] exactly once. *)
Theorem streamChat_independent_of_partial_reads :
(forall (values values' : list (list Byte.byte)) (failure : option Thrown),
    concat values = concat values' ->
    streamChat (reading (mkReader values failure)) =
    streamChat (reading (mkReader values' failure))) /\
(forall n : nat,
    yielded (streamChat (stream [firstn n (line hi); skipn n (line hi)])) =
    [JSON.String (js "Hi")]).
Proof.
split.
- apply streamChat_chunking.
- intros n. unfold stream.
  rewrite (@streamChat_chunking _ [line hi] None).
  + vm_compute. reflexivity.
  + simpl. now rewrite !app_nil_r, firstn_skipn.
Qed.

Lemma streamChat_independent_of_partial_reads_witness :
streamChat (stream [firstn 10 (line hi); skipn 10 (line hi) ++ line hi]) =
streamChat (stream [line hi; []; line hi]).
Proof.
apply (proj1 streamChat_independent_of_partial_reads).
vm_compute. reflexivity.
Defined.

(** C3, as the code has it. A completed line that is [data: [DONE]] once
  trimmed yields no fragment and is skipped like a blank line: the drained
  generator is the one of the same stream without that line, so the lines
  that follow it are still decoded and their fragments emitted. *)
Theorem DONE_line_is_skipped :
forall (values values' : list (list Byte.byte)) (failure : option Thrown)
       (pre l post : jsstring),
  decoded values = pre ++ l ++ 10 :: post ->
  decoded values' = pre ++ post ->
  endsLines pre -> ~ In 10 l ->
  trim l = DONE ->
  streamChat (reading (mkReader values failure)) =
  streamChat (reading (mkReader values' failure)).
Proof.
intros values values' failure pre l post E E' Hpre Hl Hdone.
apply streamChat_skipped_line with (pre := pre) (l := l) (post := post);
  auto using processLine_DONE.
Qed.

Lemma DONE_line_is_skipped_witness :
streamChat (stream [line hi ++ line "data: [DONE]" ++ line hi]) =
streamChat (stream [line hi ++ line hi]).
Proof.
apply (@DONE_line_is_skipped _ _ None
         (js (quoted hi) ++ [10]) (js "data: [DONE]") (js (quoted hi) ++ [10])).
- vm_compute. reflexivity.
- vm_compute. reflexivity.
- right. exists (js (quoted hi)). reflexivity.
- vm_compute. intuition discriminate.
- vm_compute. reflexivity.
Defined.

(** C3, as stated, fails: after a [data: [DONE]] line the line that follows
  still yields its fragment, so the stream does not yield what it would
  have yielded had emission ended at the sentinel. *)
Lemma DONE_does_not_terminate :
yielded (streamChat (stream [line "data: [DONE]"; line hi])) =
  [JSON.String (js "Hi")] /\
yielded (streamChat (stream [line "data: [DONE]"; line hi])) <>
yielded (streamChat (stream [line "data: [DONE]"])).
Proof. split; [vm_compute; reflexivity | vm_compute; discriminate]. Qed.

(** C7. A completed line whose trimmed text starts with [data: ] and whose
  payload [JSON.parse] rejects is skipped without ending the stream: the
  drained generator, fragments before and after the line included, is the
  one of the same stream without that line. *)
Theorem malformed_line_is_skipped :
forall (values values' : list (list Byte.byte)) (failure : option Thrown)
       (pre bad post : jsstring),
  decoded values = pre ++ bad ++ 10 :: post ->
  decoded values' = pre ++ post ->
  endsLines pre -> ~ In 10 bad ->
  startsWith (trim bad) (js "data: ") = true ->
  JSON.parse (slice (trim bad) 6) = None ->
  streamChat (reading (mkReader values failure)) =
  streamChat (reading (mkReader values' failure)).
Proof.
intros values values' failure pre bad post E E' Hpre Hbad _ Hparse.
apply streamChat_skipped_line with (pre := pre) (l := bad) (post := post);
  auto using processLine_malformed.
Qed.

Lemma malformed_line_is_skipped_witness :
streamChat (stream [line hi; line "data: {bad"; line hi]) =
streamChat (stream [line hi; line hi]) /\
yielded (streamChat (stream [line hi; line "data: {bad"; line hi])) =
[JSON.String (js "Hi"); JSON.String (js "Hi")].
Proof.
split.
- apply (@malformed_line_is_skipped _ _ None
           (js (quoted hi) ++ [10]) (js "data: {bad") (js (quoted hi) ++ [10])).
  + vm_compute. reflexivity.
  + vm_compute. reflexivity.
  + right. exists (js (quoted hi)). reflexivity.
  + vm_compute. intuition discriminate.
  + vm_compute. reflexivity.
  + vm_compute. reflexivity.
- vm_compute. reflexivity.
Defined.

(** C10. What follows the last newline of the stream is never parsed. When
    the reads end, that unfinished line is what [buffer] holds, and the
    drained generator is the one of the stream that stops at the last
    newline. Had the same line been ended by a newline and carried a delta,
    that delta would have been one more fragment, the last. A stream that is
    only the unterminated line
    [data: {"choices":[{"delta":{"content":"Hi"}}]}] yields nothing. *)
Theorem unterminated_last_line_is_dropped :
  (forall (values values' : list (list Byte.byte)) (failure : option Thrown)
          (pre tail : jsstring),
      decoded values = pre ++ tail ->
      decoded values' = pre ->
      endsLines pre -> ~ In 10 tail ->
      option_map buffer (snd (streamChat_run (reading (mkReader values failure))))
        = Some tail /\
      streamChat (reading (mkReader values failure)) =
        streamChat (reading (mkReader values' failure))) /\
  (forall (values values' : list (list Byte.byte)) (failure : option Thrown)
          (pre tail : jsstring) (d : JSON.Value),
      decoded values = pre ++ tail ->
      decoded values' = pre ++ tail ++ [10] ->
      endsLines pre -> ~ In 10 tail ->
      processLine tail = Some d ->
      yielded (streamChat (reading (mkReader values' failure))) =
        yielded (streamChat (reading (mkReader values failure))) ++ [d]) /\
  yielded (streamChat (stream [list_byte_of_string (quoted hi)])) = [].
Proof.
  split; [|split; [|vm_compute; reflexivity]].
  - intros values values' failure pre tail E E' Hpre Htail.
    unfold reading at 1. rewrite streamChat_run_spec, !streamChat_spec.
    rewrite E, E'. simpl.
    rewrite (carryover_after _ Hpre), (@carryover_free tail Htail).
    rewrite (completeLines_after _ Hpre), processLines_app.
    rewrite (@completeLines_free tail Htail). simpl. rewrite app_nil_r.
    split; reflexivity.
  - intros values values' failure pre tail d E E' Hpre Htail Hd.
    rewrite !streamChat_spec, E, E'. simpl.
    rewrite !(completeLines_after _ Hpre), !processLines_app.
    rewrite (@completeLines_free tail Htail).
    rewrite (@completeLines_line tail [] Htail). simpl.
    now rewrite Hd, app_nil_r.
Qed.

Lemma unterminated_last_line_is_dropped_witness :
  (option_map buffer
     (snd (streamChat_run (stream [line hi; list_byte_of_string (quoted hi)])))
     = Some (js (quoted hi)) /\
   streamChat (stream [line hi; list_byte_of_string (quoted hi)]) =
     streamChat (stream [line hi])) /\
  yielded (streamChat (stream [line hi; line hi])) =
    yielded (streamChat (stream [line hi; list_byte_of_string (quoted hi)])) ++
    [JSON.String (js "Hi")].
Proof.
  split.
  - apply (proj1 unterminated_last_line_is_dropped
             [line hi; list_byte_of_string (quoted hi)] [line hi]
             None (js (quoted hi) ++ [10]) (js (quoted hi))).
    + vm_compute. reflexivity.
    + vm_compute. reflexivity.
    + right. exists (js (quoted hi)). reflexivity.
    + vm_compute. intuition discriminate.
  - apply (proj1 (proj2 unterminated_last_line_is_dropped)
             [line hi; list_byte_of_string (quoted hi)] [line hi; line hi]
             None (js (quoted hi) ++ [10]) (js (quoted hi))
             (JSON.String (js "Hi"))).
    + vm_compute. reflexivity.
    + vm_compute. reflexivity.
    + right. exists (js (quoted hi)). reflexivity.
    + vm_compute. intuition discriminate.
    + vm_compute. reflexivity.
Defined.

(** A character of several bytes cut between two reads is decoded once the
    second read completes it. *)
Example character_across_reads :
  yielded
    (streamChat
       (stream
          [list_byte_of_string (quoted "data: {'choices':[{'delta':{'content':'")
             ++ [Byte.xe4; Byte.xbd];
           [Byte.xa0] ++ line "'}}]}"])) =
  [JSON.String [0x4F60]].
Proof. vm_compute. reflexivity. Qed.

End StreamClaims.


(** ** The conversation session *)

Section SessionFacts.
Context {World : Type} {P : ModelProvider.Impl World}.
Import NovelAgent.

(** [chat] in terms of the one provider call it makes. *)
Lemma chat_run (text : jsstring) (this : NovelAgent.t) (w : World) :
  NovelAgent.chat text (this, w) =
  match ModelProvider.chat (provider this)
          (conversationHistory this ++ [Message.mk user text])
          (Some (systemPrompt this)) w with
  | (Normal response, w') =>
      (Normal (ModelResponse.content response),
       (NovelAgent.mk (provider this)
          ((conversationHistory this ++ [Message.mk user text]) ++
           [Message.mk assistant (ModelResponse.content response)])
          (systemPrompt this), w'))
  | (Throw e, w') =>
      (Throw e,
       (NovelAgent.mk (provider this)
          (conversationHistory this ++ [Message.mk user text])
          (systemPrompt this), w'))
  end.
Proof.
  unfold NovelAgent.chat, bind, tryCatch, provider_chat, push, ret, throw.
  simpl.
  destruct (ModelProvider.chat _ _ _ w) as [[response|e] w']; reflexivity.
Qed.

Lemma turns_length (texts replies : list jsstring) :
  length replies = length texts ->
  length (turns texts replies) = 2 * length texts.
Proof.
  revert replies. induction texts as [|text texts IH]; intros [|reply replies] H;
    simpl in *; try discriminate; [reflexivity|].
  rewrite IH by congruence. lia.
Qed.

Lemma turns_nth (texts replies : list jsstring) (i : nat) (text reply : jsstring) :
  nth_error texts i = Some text -> nth_error replies i = Some reply ->
  nth_error (turns texts replies) (2 * i) = Some (Message.mk user text) /\
  nth_error (turns texts replies) (2 * i + 1) = Some (Message.mk assistant reply).
Proof.
  revert texts replies.
  induction i as [|i IH]; intros [|t texts] [|r replies] Ht Hr;
    simpl in Ht, Hr; try discriminate.
  - inversion Ht; inversion Hr; subst. split; reflexivity.
  - replace (2 * S i) with (S (S (2 * i))) by lia.
    replace (S (S (2 * i)) + 1) with (S (S (2 * i + 1))) by lia.
    simpl turns. simpl nth_error. now apply IH.
Qed.

(** Submits that all succeed extend the history by their turns, and each
    reply is the content the provider returned for the history as it stood
    with the user turn just recorded. *)
Lemma submitAll_succeeded (texts : list jsstring) :
  forall (this this' : NovelAgent.t) (w w' : World)
         (results : list (completion jsstring)),
    submitAll texts (this, w) = (results, (this', w')) ->
    Forall (@succeeded jsstring) results ->
    exists replies,
      results = map Normal replies /\
      length replies = length texts /\
      provider this' = provider this /\
      systemPrompt this' = systemPrompt this /\
      conversationHistory this' = conversationHistory this ++ turns texts replies /\
      forall i reply,
        nth_error replies i = Some reply ->
        exists response wi wi',
          ModelProvider.chat (provider this)
            (conversationHistory this ++ firstn (2 * i + 1) (turns texts replies))
            (Some (systemPrompt this)) wi = (Normal response, wi') /\
          ModelResponse.content response = reply.
Proof.
  induction texts as [|text texts IH]; intros this this' w w' results Hrun Hall.
  - simpl in Hrun. inversion Hrun; subst. exists []. simpl.
    rewrite app_nil_r. repeat split; try reflexivity.
    intros [|i] reply H; discriminate.
  - simpl in Hrun. rewrite chat_run in Hrun.
    destruct (ModelProvider.chat _ _ _ w) as [[response|e] w1] eqn:Hchat.
    + destruct (submitAll texts _) as [rs [this2 w2]] eqn:Hrest.
      inversion Hrun; subst. inversion Hall as [|? ? _ Hrs]; subst.
      destruct (IH _ _ _ _ _ Hrest Hrs)
        as (replies & -> & Hlen & Hprov & Hsys & Hhist & Htrace).
      simpl in Hprov, Hsys, Hhist, Htrace.
      exists (ModelResponse.content response :: replies).
      split; [reflexivity|]. split; [simpl; congruence|].
      split; [assumption|]. split; [assumption|]. split.
      * rewrite Hhist, <- !app_assoc. reflexivity.
      * intros [|i] reply Hi; simpl in Hi.
        -- inversion Hi; subst. exists response, w, w1. now split.
        -- destruct (Htrace i reply Hi) as (resp & wi & wi' & Hcall & Hcontent).
           exists resp, wi, wi'. split; [|assumption].
           replace (2 * S i + 1) with (S (S (2 * i + 1))) by lia.
           rewrite <- Hcall, <- !app_assoc. reflexivity.
    + destruct (submitAll texts _) as [rs [this2 w2]].
      inversion Hrun; subst. inversion Hall as [|? ? [a Ha] _]; discriminate.
Qed.
End SessionFacts.

Section SessionClaims.
Context {World : Type} {P : ModelProvider.Impl World}.
Import NovelAgent.

(** C1. After [n] calls of [chat] on a new session that all succeed, the
    snapshot [getHistory] returns has length [2 * n]; its entry [2 * i] is
    the user message with the text of call [i], its entry [2 * i + 1] the
    assistant message with the reply of call [i], and that reply is the
    content the provider returned when called with the history up to and
    including that user message. *)
Theorem history_after_successful_submits :
  forall (buildSystemPrompt : jsstring) (config : ModelConfig.t)
         (texts : list jsstring) (w w' : World)
         (results : list (completion jsstring)) (this : NovelAgent.t),
    submitAll texts (NovelAgent.constructor buildSystemPrompt config, w) =
      (results, (this, w')) ->
    Forall (@succeeded jsstring) results ->
    exists replies,
      results = map Normal replies /\
      length (getHistory this) = 2 * length texts /\
      getHistory this = turns texts replies /\
      forall i text,
        nth_error texts i = Some text ->
        exists reply response wi wi',
          nth_error replies i = Some reply /\
          nth_error (getHistory this) (2 * i) = Some (Message.mk user text) /\
          nth_error (getHistory this) (2 * i + 1) =
            Some (Message.mk assistant reply) /\
          ModelProvider.chat (provider this)
            (firstn (2 * i + 1) (getHistory this))
            (Some (systemPrompt this)) wi = (Normal response, wi') /\
          ModelResponse.content response = reply.
Proof.
  intros sp config texts w w' results this Hrun Hall.
  edestruct submitAll_succeeded
    as (replies & Hres & Hlen & Hprov & Hsys & Hhist & Htrace);
    [exact Hrun | exact Hall |].
  simpl in Hprov, Hsys, Hhist, Htrace. unfold getHistory.
  exists replies. rewrite Hhist, Hprov, Hsys.
  repeat split; auto using turns_length.
  intros i text Hi.
  destruct (nth_error replies i) as [reply|] eqn:Hr.
  - destruct (Htrace i reply Hr) as (response & wi & wi' & Hcall & Hcontent).
    edestruct turns_nth as [Hu Ha]; [exact Hi | exact Hr |].
    exists reply, response, wi, wi'. repeat split; assumption.
  - apply nth_error_None in Hr.
    assert (i < length texts) by (apply nth_error_Some; congruence). lia.
Qed.

(** C4. When the provider's [chat] throws on the history extended with the
    new user message, the session's [chat] throws the same value, and leaves
    a history that is the earlier one with that user message appended and
    nothing else; the provider and the system prompt are as before. *)
Theorem failed_submit_keeps_user_turn :
  forall (this : NovelAgent.t) (userMessage : jsstring) (w w' : World)
         (error : Thrown),
    ModelProvider.chat (provider this)
      (conversationHistory this ++ [Message.mk user userMessage])
      (Some (systemPrompt this)) w = (Throw error, w') ->
    exists this',
      NovelAgent.chat userMessage (this, w) = (Throw error, (this', w')) /\
      getHistory this' = getHistory this ++ [Message.mk user userMessage] /\
      provider this' = provider this /\
      systemPrompt this' = systemPrompt this.
Proof.
  intros this userMessage w w' error H.
  rewrite chat_run, H. eexists. repeat split.
Qed.

End SessionClaims.

Lemma history_after_successful_submits_witness :
  exists replies,
    length
      (NovelAgent.getHistory
         (fst (snd (NovelAgent.submitAll (P := exampleImpl) [js "one"; js "two"]
                      (NovelAgent.constructor (P := exampleImpl) (js "prompt")
                         exampleConfig, 0))))) = 2 * 2 /\
    NovelAgent.getHistory
      (fst (snd (NovelAgent.submitAll (P := exampleImpl) [js "one"; js "two"]
                   (NovelAgent.constructor (P := exampleImpl) (js "prompt")
                      exampleConfig, 0)))) =
    turns [js "one"; js "two"] replies.
Proof.
  destruct (@history_after_successful_submits nat exampleImpl (js "prompt")
              exampleConfig [js "one"; js "two"] 0 2
              [Normal (js "re: one"); Normal (js "re: two")]
              (NovelAgent.mk
                 (ModelProvider.constructor (P := exampleImpl) exampleConfig)
                 (turns [js "one"; js "two"] [js "re: one"; js "re: two"])
                 (js "prompt")))
    as (replies & _ & Hlen & Hhist & _).
  - vm_compute. reflexivity.
  - repeat constructor; eexists; reflexivity.
  - exists replies. split; [exact Hlen | exact Hhist].
Defined.

Lemma failed_submit_keeps_user_turn_witness :
  exists this',
    NovelAgent.chat (P := exampleImpl) []
      (NovelAgent.constructor (P := exampleImpl) (js "prompt") exampleConfig, 0) =
      (Throw (ErrorObject (js "empty message")), (this', 1)) /\
    NovelAgent.getHistory this' = [Message.mk user []].
Proof.
  destruct (@failed_submit_keeps_user_turn nat exampleImpl
              (NovelAgent.constructor (P := exampleImpl) (js "prompt") exampleConfig)
              [] 0 1 (ErrorObject (js "empty message")))
    as (this' & Hrun & Hhist & _).
  - vm_compute. reflexivity.
  - exists this'. split; assumption.
Defined.

(** ** Request building *)

Lemma Message_eta (msg : Message.t) :
  Message.mk (Message.role msg) (Message.content msg) = msg.
Proof. now destruct msg. Qed.

Lemma Role_eqb_eq (a b : Role) : Role_eqb a b = true <-> a = b.
Proof. destruct a, b; simpl; split; congruence. Qed.

(** [forEach] with [push] appends the messages, each copied field by field. *)
Lemma push_each (messages result : list Message.t) :
  fold_left
    (fun result msg =>
       result ++ [Message.mk (Message.role msg) (Message.content msg)])
    messages result = result ++ messages.
Proof.
  revert result. induction messages as [|msg messages IH]; intros result; simpl.
  - now rewrite app_nil_r.
  - now rewrite IH, Message_eta, <- app_assoc.
Qed.

(** C5. In the request the Claude adapter builds, [messages] is the input
    history without its system-role entries, the others unchanged and in
    their order, so no entry of it has role system; and the system
    instruction is the value of the one top-level [system] field. *)
Theorem claude_request_keeps_system_apart :
  forall (this : ModelProvider.t) (messages : list Message.t)
         (systemPrompt : option jsstring),
    let params := ClaudeProvider.request this messages systemPrompt in
    ClaudeProvider.CreateParams.messages params =
      filter (fun msg => negb (Role_eqb (Message.role msg) system)) messages /\
    Forall (fun msg => Message.role msg <> system)
      (ClaudeProvider.CreateParams.messages params) /\
    (forall msg, In msg messages -> Message.role msg <> system ->
                 In msg (ClaudeProvider.CreateParams.messages params)) /\
    ClaudeProvider.CreateParams.system params = systemPrompt.
Proof.
  intros this messages systemPrompt params.
  assert (E : ClaudeProvider.CreateParams.messages params =
              filter (fun msg => negb (Role_eqb (Message.role msg) system)) messages).
  { subst params. unfold ClaudeProvider.request, ClaudeProvider.convertMessages.
    simpl. rewrite (map_ext _ (fun msg => msg) Message_eta). apply map_id. }
  rewrite E. repeat split.
  - apply Forall_forall. intros msg Hin. apply filter_In in Hin as [_ Hrole].
    intros Hsys. rewrite Hsys in Hrole. discriminate.
  - intros msg Hin Hrole. apply filter_In. split; [assumption|].
    destruct (Role_eqb (Message.role msg) system) eqn:Hb; [|reflexivity].
    apply Role_eqb_eq in Hb. contradiction.
Qed.

(** C6, as the code has it. The message list the DeepSeek adapter sends is
    the input history, each entry unchanged and in order, preceded by one
    message with role system and the instruction as content when a non-empty
    instruction is given; when no instruction is given, or the empty one,
    it is the input history and nothing else. *)
Theorem deepseek_messages_start_with_nonempty_instruction :
  forall (messages : list Message.t),
    (forall text : jsstring,
        text <> [] ->
        DeepSeekProvider.convertMessages messages (Some text) =
        Message.mk system text :: messages) /\
    DeepSeekProvider.convertMessages messages None = messages /\
    DeepSeekProvider.convertMessages messages (Some []) = messages.
Proof.
  intros messages. unfold DeepSeekProvider.convertMessages.
  repeat split; try apply push_each.
  intros [|c text] H; [contradiction|]. simpl truthy_string. cbv iota.
  now rewrite push_each.
Qed.

Lemma deepseek_messages_start_with_nonempty_instruction_witness :
  DeepSeekProvider.convertMessages [Message.mk user (js "Hello")]
    (Some (js "Be brief")) =
  [Message.mk system (js "Be brief"); Message.mk user (js "Hello")].
Proof.
  apply (proj1 (deepseek_messages_start_with_nonempty_instruction
                  [Message.mk user (js "Hello")]) (js "Be brief")).
  vm_compute. discriminate.
Defined.

(** C6, as stated, fails: given the empty string as system instruction, the
    list does not start with a system message of that content. *)
Lemma deepseek_empty_instruction_not_sent :
  DeepSeekProvider.convertMessages [Message.mk user (js "Hello")] (Some []) <>
  Message.mk system [] :: [Message.mk user (js "Hello")].
Proof. vm_compute. discriminate. Qed.

(** ** The base class *)

Section BaseClaims.
Context {World : Type} {P : ModelProvider.Impl World}.

(** C8. When [chat] returns a response for a history and a system
    instruction, the default [streamChat] on the same inputs, in the same
    world, yields one fragment, that response's content, and then returns;
    so its fragments concatenate to the content [chat] returned. *)
Theorem default_streamChat_yields_chat_content :
  forall (this : ModelProvider.t) (messages : list Message.t)
         (systemPrompt : option jsstring) (w w' : World)
         (response : ModelResponse.t),
    ModelProvider.chat this messages systemPrompt w = (Normal response, w') ->
    ModelProvider.streamChat this messages systemPrompt w =
      (mkDrained [ModelResponse.content response] (Normal tt), w') /\
    concat (yielded (fst (ModelProvider.streamChat this messages systemPrompt w))) =
      ModelResponse.content response.
Proof.
  intros this messages systemPrompt w w' response H.
  unfold ModelProvider.streamChat. rewrite H. simpl.
  split; [reflexivity | apply app_nil_r].
Qed.

(** C9. A configuration that supplies [maxTokens] as 0 gives an adapter whose
    [getConfig] reports 4096, and one that supplies [temperature] as 0 gives
    one that reports 0.7; in both cases [getConfig] is what it is when the
    field is absent. *)
Theorem zero_limits_report_defaults :
  forall (config : ModelConfig.t),
    (ModelConfig.maxTokens config = Some 0%float ->
     ModelProvider.config_maxTokens
       (ModelProvider.getConfig (ModelProvider.constructor config)) = 4096%float /\
     ModelProvider.getConfig (ModelProvider.constructor config) =
     ModelProvider.getConfig
       (ModelProvider.constructor
          (ModelConfig.mk (ModelConfig.apiKey config) (ModelConfig.model config)
             None (ModelConfig.temperature config) (ModelConfig.baseURL config)))) /\
    (ModelConfig.temperature config = Some 0%float ->
     ModelProvider.config_temperature
       (ModelProvider.getConfig (ModelProvider.constructor config)) = 0.7%float /\
     ModelProvider.getConfig (ModelProvider.constructor config) =
     ModelProvider.getConfig
       (ModelProvider.constructor
          (ModelConfig.mk (ModelConfig.apiKey config) (ModelConfig.model config)
             (ModelConfig.maxTokens config) None (ModelConfig.baseURL config)))).
Proof.
  intros config. unfold ModelProvider.getConfig, ModelProvider.constructor.
  split; intros H; simpl; rewrite H; split; reflexivity.
Qed.

End BaseClaims.

Lemma default_streamChat_yields_chat_content_witness :
  ModelProvider.streamChat (P := exampleImpl)
    (ModelProvider.constructor (P := exampleImpl) exampleConfig)
    [Message.mk user (js "one")] None 0 =
  (mkDrained [js "re: one"] (Normal tt), 1).
Proof.
  apply (@default_streamChat_yields_chat_content nat exampleImpl
           (ModelProvider.constructor (P := exampleImpl) exampleConfig)
           [Message.mk user (js "one")] None 0 1
           (ModelResponse.mk (js "re: one") (js "example-model") None)).
  vm_compute. reflexivity.
Defined.

Lemma zero_limits_report_defaults_witness :
  ModelProvider.config_maxTokens
    (ModelProvider.getConfig (P := exampleImpl)
       (ModelProvider.constructor (P := exampleImpl) exampleConfig)) = 4096%float /\
  ModelProvider.config_temperature
    (ModelProvider.getConfig (P := exampleImpl)
       (ModelProvider.constructor (P := exampleImpl) exampleConfig)) = 0.7%float.
Proof.
  split.
  - apply (proj1 (@zero_limits_report_defaults nat exampleImpl exampleConfig)).
    reflexivity.
  - apply (proj2 (@zero_limits_report_defaults nat exampleImpl exampleConfig)).
    reflexivity.
Defined.


(** * Further properties of the code *)

Unset Implicit Arguments.

(** ** Strings *)

Lemma jsstring_eqb_eq (a b : jsstring) : jsstring_eqb a b = true <-> a = b.
Proof.
  revert b. induction a as [|x a IH]; intros [|y b]; simpl; split;
    try congruence; try reflexivity.
  - intros H. apply andb_true_iff in H as [Hx Hab].
    apply Z.eqb_eq in Hx. apply IH in Hab. congruence.
  - intros H. inversion H; subst. rewrite Z.eqb_refl. now apply IH.
Qed.

Lemma jsstring_eqb_refl (a : jsstring) : jsstring_eqb a a = true.
Proof. now apply jsstring_eqb_eq. Qed.


Section TrimFacts.
Import DeepSeekProvider.

Lemma trimStart_app (l m : jsstring) :
  trimStart (l ++ m) =
  match trimStart l with
  | [] => trimStart m
  | c :: t => (c :: t) ++ m
  end.
Proof.
  induction l as [|x l IH]; [reflexivity|].
  simpl. destruct (is_space x); [exact IH | reflexivity].
Qed.

Lemma trimStart_head (s : jsstring) (c : Z) (t : jsstring) :
  trimStart s = c :: t -> is_space c = false.
Proof.
  induction s as [|x s IH]; simpl; [discriminate|].
  destruct (is_space x) eqn:E; [exact IH|].
  intros H. inversion H; subst. exact E.
Qed.

Lemma trimStart_fixed (c : Z) (s : jsstring) :
  is_space c = false -> trimStart (c :: s) = c :: s.
Proof. intros H. simpl. now rewrite H. Qed.

Lemma trimStart_idempotent (s : jsstring) : trimStart (trimStart s) = trimStart s.
Proof.
  destruct (trimStart s) as [|c t] eqn:E; [reflexivity|].
  apply trimStart_fixed. exact (trimStart_head _ _ _ E).
Qed.

(** The end of a text, trimmed: what [trim] does after [trimStart]. *)
Lemma trim_cons (c : Z) (s : jsstring) :
  is_space c = false ->
  trim (c :: s) = c :: rev (trimStart (rev s)).
Proof.
  intros H. unfold trim. rewrite (trimStart_fixed _ _ H).
  simpl rev. rewrite trimStart_app.
  destruct (trimStart (rev s)) as [|x t] eqn:E.
  - simpl. now rewrite H.
  - rewrite rev_app_distr. reflexivity.
Qed.

Lemma trim_trimStart (s : jsstring) : trim (trimStart s) = trim s.
Proof. unfold trim. now rewrite trimStart_idempotent. Qed.

Lemma trim_idempotent (s : jsstring) : trim (trim s) = trim s.
Proof.
  rewrite <- (trim_trimStart s).
  destruct (trimStart s) as [|c t] eqn:E; [reflexivity|].
  pose proof (trimStart_head _ _ _ E) as Hc.
  rewrite (trim_cons _ _ Hc), (trim_cons _ _ Hc).
  rewrite rev_involutive, trimStart_idempotent. reflexivity.
Qed.

(** White space before or after a text does not count. *)
Lemma trim_space_before (c : Z) (s : jsstring) :
  is_space c = true -> trim (c :: s) = trim s.
Proof. intros H. unfold trim. simpl. now rewrite H. Qed.

Lemma trim_space_after (c : Z) (s : jsstring) :
  is_space c = true -> trim (s ++ [c]) = trim s.
Proof.
  intros H. unfold trim. rewrite trimStart_app.
  destruct (trimStart s) as [|x t] eqn:E.
  - simpl. now rewrite H.
  - rewrite rev_app_distr. simpl. now rewrite H.
Qed.
End TrimFacts.

(** ** The session, whatever the provider does *)

Section AgentFacts.
Context {World : Type} {P : ModelProvider.Impl World}.
Import NovelAgent.

Lemma withRole_app (r : Role) (a b : list Message.t) :
  withRole r (a ++ b) = withRole r a ++ withRole r b.
Proof. apply filter_app. Qed.

(** What a run of submits adds to the history. *)
Lemma submitAll_adds (texts : list jsstring) :
  forall (this : NovelAgent.t) (w : World),
    let run := submitAll texts (this, w) in
    provider (fst (snd run)) = provider this /\
    systemPrompt (fst (snd run)) = systemPrompt this /\
    length (fst run) = length texts /\
    exists added,
      conversationHistory (fst (snd run)) = conversationHistory this ++ added /\
      withRole user added = map (Message.mk user) texts /\
      withRole assistant added = map (Message.mk assistant) (successes (fst run)) /\
      withRole system added = [] /\
      length added = length texts + length (successes (fst run)).
Proof.
  induction texts as [|text texts IH]; intros this w; simpl.
  - repeat split. exists []. rewrite app_nil_r. repeat split.
  - rewrite chat_run.
    destruct (ModelProvider.chat _ _ _ w) as [[response|e] w1].
    + specialize (IH
        (NovelAgent.mk (provider this)
           ((conversationHistory this ++ [Message.mk user text]) ++
            [Message.mk assistant (ModelResponse.content response)])
           (systemPrompt this)) w1).
      destruct (submitAll texts _) as [rs [this2 w2]]. simpl in *.
      destruct IH as (Hp & Hs & Hl & added & Hh & Hu & Ha & Hsys & Hlen).
      repeat split; try congruence.
      exists (Message.mk user text ::
              Message.mk assistant (ModelResponse.content response) :: added).
      rewrite Hh, <- !app_assoc. simpl.
      unfold withRole in *. simpl.
      rewrite Hu, Ha, Hsys, Hlen. repeat split. lia.
    + specialize (IH
        (NovelAgent.mk (provider this)
           (conversationHistory this ++ [Message.mk user text])
           (systemPrompt this)) w1).
      destruct (submitAll texts _) as [rs [this2 w2]]. simpl in *.
      destruct IH as (Hp & Hs & Hl & added & Hh & Hu & Ha & Hsys & Hlen).
      repeat split; try congruence.
      exists (Message.mk user text :: added).
      rewrite Hh, <- !app_assoc. simpl.
      unfold withRole in *. simpl.
      rewrite Hu, Ha, Hsys, Hlen. repeat split.
Qed.

Lemma filter_all (A : Type) (f : A -> bool) (l : list A) :
  filter (fun x => negb (f x)) l = [] -> filter f l = l.
Proof.
  induction l as [|x l IH]; [reflexivity|]. simpl.
  destruct (f x); simpl; [|discriminate].
  intros H. now rewrite IH.
Qed.

Lemma Role_eqb_refl (r : Role) : Role_eqb r r = true.
Proof. now destruct r. Qed.

End AgentFacts.

Section AgentExtras.
Context {World : Type} {P : ModelProvider.Impl World}.
Import NovelAgent.

(** X1. Whatever the provider does, a run of submits records every submitted
    text as a user message, in order, and every returned reply as an assistant
    message, in order, and nothing else: the history grows by one entry per
    submit and one per success, none of them a system message, and the
    provider and the system prompt stay as they were. *)
Theorem every_submit_is_recorded :
  forall (texts : list jsstring) (this : NovelAgent.t) (w : World),
    let run := submitAll texts (this, w) in
    provider (fst (snd run)) = provider this /\
    systemPrompt (fst (snd run)) = systemPrompt this /\
    length (fst run) = length texts /\
    exists added,
      getHistory (fst (snd run)) = getHistory this ++ added /\
      withRole user added = map (Message.mk user) texts /\
      withRole assistant added = map (Message.mk assistant) (successes (fst run)) /\
      withRole system added = [] /\
      length added = length texts + length (successes (fst run)).
Proof. intros texts this w. apply submitAll_adds. Qed.

(** X2. After a submit that failed, the next submit sends the provider the
    failed user message followed by the new one; when it succeeds the history
    ends with two user messages and one assistant message, so user and
    assistant entries no longer alternate. *)
Theorem failed_turn_is_sent_again :
  forall (this : NovelAgent.t) (first second : jsstring) (w w1 w2 : World)
         (error : Thrown) (response : ModelResponse.t),
    ModelProvider.chat (provider this)
      (conversationHistory this ++ [Message.mk user first])
      (Some (systemPrompt this)) w = (Throw error, w1) ->
    ModelProvider.chat (provider this)
      (conversationHistory this ++
       [Message.mk user first; Message.mk user second])
      (Some (systemPrompt this)) w1 = (Normal response, w2) ->
    submitAll [first; second] (this, w) =
    ([Throw error; Normal (ModelResponse.content response)],
     (NovelAgent.mk (provider this)
        (conversationHistory this ++
         [Message.mk user first; Message.mk user second;
          Message.mk assistant (ModelResponse.content response)])
        (systemPrompt this), w2)).
Proof.
  intros this first second w w1 w2 error response H1 H2.
  simpl. rewrite chat_run, H1, chat_run. simpl.
  rewrite <- app_assoc. simpl. rewrite H2, <- app_assoc. reflexivity.
Qed.


(** X4. The history of a session started empty never holds a system message,
    so the Claude adapter's filter drops nothing from it: the message array
    of the Claude request is the whole history, and the DeepSeek list is the
    same history after the system message. *)
Theorem session_history_is_sent_whole :
  forall (buildSystemPrompt : jsstring) (config : ModelConfig.t)
         (texts : list jsstring) (w : World),
    let this :=
      fst (snd (submitAll texts
                  (NovelAgent.constructor buildSystemPrompt config, w))) in
    ClaudeProvider.convertMessages (getHistory this) = getHistory this /\
    DeepSeekProvider.convertMessages (getHistory this) (Some (systemPrompt this)) =
      (if truthy_string buildSystemPrompt
       then [Message.mk system buildSystemPrompt] else []) ++ getHistory this.
Proof.
  intros sp config texts w this.
  destruct (submitAll_adds texts (NovelAgent.constructor sp config) w)
    as (_ & Hs & _ & added & Hh & _ & _ & Hsys & _).
  fold this in Hs, Hh. simpl in Hs, Hh. unfold getHistory. split.
  - unfold ClaudeProvider.convertMessages.
    rewrite (map_ext _ (fun msg => msg) Message_eta), map_id.
    apply filter_all. rewrite Hh.
    rewrite <- Hsys. unfold withRole. apply filter_ext.
    intros msg. apply negb_involutive.
  - unfold DeepSeekProvider.convertMessages. rewrite push_each, Hs.
    reflexivity.
Qed.
End AgentExtras.

Lemma failed_turn_is_sent_again_witness :
  fst (NovelAgent.submitAll (P := exampleImpl) [[]; js "two"]
         (NovelAgent.constructor (P := exampleImpl) (js "prompt") exampleConfig, 0)) =
    [Throw (ErrorObject (js "empty message")); Normal (js "re: two")] /\
  NovelAgent.getHistory
    (fst (snd (NovelAgent.submitAll (P := exampleImpl) [[]; js "two"]
                 (NovelAgent.constructor (P := exampleImpl) (js "prompt")
                    exampleConfig, 0)))) =
    [Message.mk user []; Message.mk user (js "two");
     Message.mk assistant (js "re: two")].
Proof.
  rewrite (@failed_turn_is_sent_again nat exampleImpl
             (NovelAgent.constructor (P := exampleImpl) (js "prompt") exampleConfig)
             [] (js "two") 0 1 2 (ErrorObject (js "empty message"))
             (ModelResponse.mk (js "re: two") (js "example-model") None)).
  - split; reflexivity.
  - vm_compute. reflexivity.
  - vm_compute. reflexivity.
Defined.


(** ** The interactive session *)

Section SessionLoopFacts.
Context {World : Type} {P : ModelProvider.Impl World}.
Import NovelAgent.

Lemma exits_app (a b : list Effect) : exits (a ++ b) = exits a || exits b.
Proof. apply existsb_app. Qed.

Lemma exits_printHistory (messages : list Message.t) (idx : nat) :
  exits (printHistory idx messages) = false.
Proof.
  revert idx. induction messages as [|msg messages IH]; intros idx;
    [reflexivity|]. simpl. apply IH.
Qed.


Lemma onLine_exits (line : jsstring) (s : NovelAgent.t * World) :
  exits (fst (onLine line s)) = true ->
  (DeepSeekProvider.trim line = js "/quit" \/
   DeepSeekProvider.trim line = js "/exit") /\
  onLine line s = ([Log goodbye; Log ended; Exit 0], s).
Proof.
  unfold onLine.
  destruct (jsstring_eqb (DeepSeekProvider.trim line) (js "/quit")) eqn:Eq.
  { intros _. apply jsstring_eqb_eq in Eq. split; [now left | reflexivity]. }
  destruct (jsstring_eqb (DeepSeekProvider.trim line) (js "/exit")) eqn:Ee.
  { intros _. apply jsstring_eqb_eq in Ee. split; [now right | reflexivity]. }
  simpl orb. cbv iota.
  destruct (jsstring_eqb _ (js "/clear")); [discriminate|].
  destruct (jsstring_eqb _ (js "/history")).
  { simpl fst. cbn [exits existsb]. fold (exits (printHistory 0
      (conversationHistory (fst s)) ++ [Prompt])).
    rewrite exits_app, exits_printHistory. discriminate. }
  destruct (jsstring_eqb _ (js "/info")); [discriminate|].
  destruct (negb (truthy_string _)); [discriminate|].
  destruct (chat _ s) as [[response|error] s']; discriminate.
Qed.



End SessionLoopFacts.

Section SessionLoopExtras.
Context {World : Type} {P : ModelProvider.Impl World}.
Import NovelAgent.

(** X5. A line that is empty or one of the commands, once trimmed, never
    reaches the provider: the world is as before, and so are the provider
    fields and the system prompt; the history is as before too, except after
    [/clear], where it is empty. *)
Theorem commands_stay_in_the_session :
  forall (line : jsstring) (s : NovelAgent.t * World),
    In (DeepSeekProvider.trim line) ([] :: commands) ->
    snd (snd (onLine line s)) = snd s /\
    provider (fst (snd (onLine line s))) = provider (fst s) /\
    systemPrompt (fst (snd (onLine line s))) = systemPrompt (fst s) /\
    getHistory (fst (snd (onLine line s))) =
      (if jsstring_eqb (DeepSeekProvider.trim line) (js "/clear")
       then [] else getHistory (fst s)).
Proof.
  intros line [this w] Hin. unfold onLine. simpl in Hin.
  destruct Hin as [E|[E|[E|[E|[E|[E|[]]]]]]]; rewrite <- E; simpl;
    repeat split.
Qed.

(** X6. The handler of a line ends the process exactly when the trimmed line
    is [/quit] or [/exit], and then with code 0 and the session untouched; in
    particular a submit that the provider fails does not end the session. *)
Theorem session_ends_only_on_quit :
  forall (line : jsstring) (s : NovelAgent.t * World),
    (exits (fst (onLine line s)) = true <->
     DeepSeekProvider.trim line = js "/quit" \/
     DeepSeekProvider.trim line = js "/exit") /\
    (exits (fst (onLine line s)) = true ->
     onLine line s = ([Log goodbye; Log ended; Exit 0], s)).
Proof.
  intros line s. split; [split|].
  - intros H. apply (onLine_exits line s H).
  - intros [E|E]; unfold onLine; rewrite E; reflexivity.
  - intros H. apply (onLine_exits line s H).
Qed.



End SessionLoopExtras.

Lemma commands_stay_in_the_session_witness :
  NovelAgent.getHistory
    (fst (snd (NovelAgent.onLine (P := exampleImpl) (js "  /clear ")
                 (NovelAgent.mk
                    (ModelProvider.constructor (P := exampleImpl) exampleConfig)
                    [Message.mk user (js "old")] (js "prompt"), 0)))) = [].
Proof.
  apply (@commands_stay_in_the_session nat exampleImpl (js "  /clear ")
           (NovelAgent.mk
              (ModelProvider.constructor (P := exampleImpl) exampleConfig)
              [Message.mk user (js "old")] (js "prompt"), 0)).
  vm_compute. tauto.
Defined.



(** ** The base class, again *)

Section BaseExtras.
Context {World : Type} {P : ModelProvider.Impl World}.

(** X10. The constructor checks nothing about the limits: every supplied
    [maxTokens] or [temperature] other than 0, -0 and NaN is what [getConfig]
    reports, negative or not, while -0 and NaN give the defaults like an
    absent field. A model name that is absent or empty gives the adapter's
    default model, any other name is kept, and [provider] is the adapter's
    name. *)
Theorem getConfig_reports_what_was_supplied :
  forall (config : ModelConfig.t),
    let reported := ModelProvider.getConfig (ModelProvider.constructor config) in
    (forall v, ModelConfig.maxTokens config = Some v ->
               PrimFloat.eqb v 0%float = false -> PrimFloat.eqb v v = true ->
               ModelProvider.config_maxTokens reported = v) /\
    (forall v, ModelConfig.temperature config = Some v ->
               PrimFloat.eqb v 0%float = false -> PrimFloat.eqb v v = true ->
               ModelProvider.config_temperature reported = v) /\
    (In (ModelConfig.maxTokens config)
        [None; Some PrimFloat.neg_zero; Some PrimFloat.nan] ->
     ModelProvider.config_maxTokens reported = 4096%float) /\
    (In (ModelConfig.temperature config)
        [None; Some PrimFloat.neg_zero; Some PrimFloat.nan] ->
     ModelProvider.config_temperature reported = 0.7%float) /\
    (In (ModelConfig.model config) [None; Some []] ->
     ModelProvider.config_model reported = ModelProvider.getDefaultModel) /\
    (forall c name, ModelConfig.model config = Some (c :: name) ->
                    ModelProvider.config_model reported = c :: name) /\
    ModelProvider.config_provider reported = ModelProvider.getProviderName.
Proof.
  intros config reported. subst reported.
  unfold ModelProvider.getConfig, ModelProvider.constructor. simpl.
  repeat split.
  - intros v H H0 Hnan. rewrite H. unfold or_number, truthy_number.
    now rewrite H0, Hnan.
  - intros v H H0 Hnan. rewrite H. unfold or_number, truthy_number.
    now rewrite H0, Hnan.
  - intros [H|[H|[H|[]]]]; rewrite <- H; reflexivity.
  - intros [H|[H|[H|[]]]]; rewrite <- H; reflexivity.
  - intros [H|[H|[]]]; rewrite <- H; reflexivity.
  - intros c name H. rewrite H. reflexivity.
Qed.

(** X11. The default [streamChat] makes the one [chat] call and nothing
    else: it leaves the world as that call leaves it, and when the call
    throws it yields no fragment and throws the same value, not wrapped. *)
Theorem default_streamChat_passes_failure_on :
  forall (this : ModelProvider.t) (messages : list Message.t)
         (systemPrompt : option jsstring) (w : World),
    snd (ModelProvider.streamChat this messages systemPrompt w) =
      snd (ModelProvider.chat this messages systemPrompt w) /\
    forall error,
      fst (ModelProvider.chat this messages systemPrompt w) = Throw error ->
      fst (ModelProvider.streamChat this messages systemPrompt w) =
        mkDrained [] (Throw error).
Proof.
  intros this messages systemPrompt w. unfold ModelProvider.streamChat.
  destruct (ModelProvider.chat this messages systemPrompt w)
    as [[response|e] w']; simpl; split; try reflexivity; intros error H;
    [discriminate | now inversion H].
Qed.
End BaseExtras.

Lemma getConfig_reports_what_was_supplied_witness :
  ModelProvider.config_maxTokens
    (ModelProvider.getConfig (P := exampleImpl)
       (ModelProvider.constructor (P := exampleImpl)
          (ModelConfig.mk (js "key") None (Some (-5)%float) None None))) =
  (-5)%float.
Proof.
  apply (proj1 (@getConfig_reports_what_was_supplied nat exampleImpl
                  (ModelConfig.mk (js "key") None (Some (-5)%float) None None)));
    reflexivity.
Defined.

Lemma default_streamChat_passes_failure_on_witness :
  fst (ModelProvider.streamChat (P := exampleImpl)
         (ModelProvider.constructor (P := exampleImpl) exampleConfig)
         [Message.mk user []] None 0) =
  mkDrained [] (Throw (ErrorObject (js "empty message"))).
Proof.
  apply (proj2 (@default_streamChat_passes_failure_on nat exampleImpl
                  (ModelProvider.constructor (P := exampleImpl) exampleConfig)
                  [Message.mk user []] None 0)).
  reflexivity.
Defined.

(** ** The factory *)

Section FactoryExtras.
Context {World : Type}.
Variable create :
  ClaudeProvider.CreateParams.t -> World -> completion ClaudeProvider.Reply * World.
Variable deepseekChat :
  ModelProvider.t -> list Message.t -> option jsstring -> World ->
  completion ModelResponse.t * World.
Import ProviderFactory.

Lemma isSupported_names (type : jsstring) :
  isSupported type = true <-> type = js "claude" \/ type = js "deepseek".
Proof.
  unfold isSupported, getSupportedProviders. simpl.
  rewrite !orb_true_iff, !jsstring_eqb_eq. intuition discriminate.
Qed.

(** X12. [createProvider] returns an instance exactly for the identifiers
    [isSupported] accepts, which are [claude] and [deepseek] in lower case;
    for any other text it throws an [Error] whose message ends with that
    text. *)
Theorem createProvider_agrees_with_isSupported :
  forall (type : jsstring) (config : ModelConfig.t),
    (isSupported type = true <-> type = js "claude" \/ type = js "deepseek") /\
    (isSupported type = true <->
     exists provider, createProvider create deepseekChat type config = Normal provider) /\
    (isSupported type = false ->
     createProvider create deepseekChat type config =
     Throw (ErrorObject (unsupported ++ type))).
Proof.
  intros type config. split; [apply isSupported_names|].
  unfold createProvider.
  destruct (jsstring_eqb type (js "claude")) eqn:Ec.
  { apply jsstring_eqb_eq in Ec. subst. split; [|discriminate].
    split; [eexists; reflexivity | reflexivity]. }
  destruct (jsstring_eqb type (js "deepseek")) eqn:Ed.
  { apply jsstring_eqb_eq in Ed. subst. split; [|discriminate].
    split; [eexists; reflexivity | reflexivity]. }
  assert (H : isSupported type = false).
  { unfold isSupported, getSupportedProviders. simpl. now rewrite Ec, Ed. }
  rewrite H. split; [|reflexivity].
  split; [discriminate | intros [p Hp]; discriminate].
Qed.

(** X13. The table of [getProviderInfo] says what the classes do: for every
    identifier [createProvider] accepts, the table has an entry whose name is
    the created instance's [getProviderName()] and whose default model is
    its [getDefaultModel()], which is also what the factory's
    [getDefaultModel] returns; and the model the instance reports is the
    configured one, or that default when none or the empty one is
    configured. *)
Theorem provider_info_matches_classes :
  forall (type : jsstring) (config : ModelConfig.t) (provider : Provider),
    createProvider create deepseekChat type config = Normal provider ->
    exists info,
      infoOf type getProviderInfo = Some info /\
      name info =
        ModelProvider.getProviderName (Impl := implOf create deepseekChat provider) /\
      defaultModel info =
        ModelProvider.getDefaultModel (Impl := implOf create deepseekChat provider) /\
      getDefaultModel create deepseekChat type = Normal (defaultModel info) /\
      getConfig create deepseekChat provider =
        ModelProvider.mkConfig (name info)
          (or_string (ModelConfig.model config) (defaultModel info))
          (or_number (ModelConfig.maxTokens config) 4096%float)
          (or_number (ModelConfig.temperature config) 0.7%float).
Proof.
  intros type config provider H. unfold createProvider in H.
  destruct (jsstring_eqb type (js "claude")) eqn:Ec.
  { apply jsstring_eqb_eq in Ec. subst. inversion H; subst.
    eexists. repeat split. }
  destruct (jsstring_eqb type (js "deepseek")) eqn:Ed; [|discriminate].
  apply jsstring_eqb_eq in Ed. subst. inversion H; subst.
  eexists. repeat split.
Qed.

End FactoryExtras.

Lemma provider_info_matches_classes_witness :
  exists info,
    ProviderFactory.infoOf (js "deepseek") ProviderFactory.getProviderInfo = Some info /\
    ProviderFactory.name info = js "DeepSeek" /\
    ProviderFactory.defaultModel info = js "deepseek-chat".
Proof.
  destruct (@provider_info_matches_classes nat
              (fun _ w => (Throw NonError, w)) exampleChat
              (js "deepseek") exampleConfig
              (ProviderFactory.DeepSeek
                 (DeepSeekProvider.constructor
                    (P := DeepSeekProvider.impl exampleChat) exampleConfig)))
    as (info & Hinfo & Hname & Hmodel & _).
  - reflexivity.
  - exists info. repeat split; assumption.
Defined.


Section AgentFactoryExtras.
Context {World : Type}.
Variable create :
  ClaudeProvider.CreateParams.t -> World -> completion ClaudeProvider.Reply * World.
Variable deepseekChat :
  ModelProvider.t -> list Message.t -> option jsstring -> World ->
  completion ModelResponse.t * World.
Variable buildSystemPrompt : jsstring.
Import ProviderFactory.

(** X15. [new NovelAgent(config)] throws exactly when the provider
    identifier is not supported, and then the factory's error. Otherwise the
    agent starts with an empty history, and [getModelInfo] names the provider
    and the model as the table of [getProviderInfo] has them: the configured
    model, or the table's default model when none is configured. *)
Theorem new_agent_reports_its_model :
  forall (config : NovelAgent.AgentConfig.t),
    (isSupported (NovelAgent.AgentConfig.provider config) = false ->
     NovelAgent.new create deepseekChat buildSystemPrompt config =
     Throw (ErrorObject (unsupported ++ NovelAgent.AgentConfig.provider config))) /\
    (isSupported (NovelAgent.AgentConfig.provider config) = true ->
     exists provider this info,
       NovelAgent.new create deepseekChat buildSystemPrompt config =
         Normal (provider, this) /\
       NovelAgent.getHistory this = [] /\
       NovelAgent.systemPrompt this = buildSystemPrompt /\
       infoOf (NovelAgent.AgentConfig.provider config) getProviderInfo = Some info /\
       NovelAgent.getModelInfo (P := implOf create deepseekChat provider) this =
         [0x5F53; 0x524D; 0x4F7F; 0x7528]%Z ++ js ": " ++ name info ++ js " - " ++
         or_string (NovelAgent.AgentConfig.model config) (defaultModel info)).
Proof.
  intros config. unfold NovelAgent.new, createProvider. split.
  - intros H.
    destruct (jsstring_eqb _ (js "claude")) eqn:Ec.
    { apply jsstring_eqb_eq in Ec. rewrite Ec in H. discriminate. }
    destruct (jsstring_eqb _ (js "deepseek")) eqn:Ed; [|reflexivity].
    apply jsstring_eqb_eq in Ed. rewrite Ed in H. discriminate.
  - intros H. apply isSupported_names in H as [E|E]; rewrite E; simpl.
    + eexists _, _, _. repeat split.
    + eexists _, _, _. repeat split.
Qed.
End AgentFactoryExtras.

Lemma new_agent_reports_its_model_witness :
  NovelAgent.new (fun _ w => (Throw NonError, w)) exampleChat (js "prompt")
    (NovelAgent.AgentConfig.mk (js "Claude") (js "key") None None None None) =
  Throw (ErrorObject (ProviderFactory.unsupported ++ js "Claude")).
Proof.
  apply (proj1 (@new_agent_reports_its_model nat
                  (fun _ w => (Throw NonError, w)) exampleChat (js "prompt")
                  (NovelAgent.AgentConfig.mk (js "Claude") (js "key")
                     None None None None))).
  reflexivity.
Defined.

(** ** The Claude adapter, again *)

Section ClaudeExtras.
Context {World : Type}.
Import ClaudeProvider.

Lemma fragments_app (a b : list Event) :
  fragments (a ++ b) = fragments a ++ fragments b.
Proof.
  induction a as [|[[text|]|] a IH]; simpl; now rewrite ?IH.
Qed.

(** X16. The streaming Claude adapter yields one fragment for each text
    delta of the stream, the empty ones too, in order and unchanged, and
    nothing for any other event. When the stream breaks the fragments of the
    events received are still yielded and an [Error] with the adapter's
    prefix before the original message is thrown; when the call itself fails
    nothing is yielded. The request is the one of [chat], free of system
    messages. *)
Theorem claude_stream_yields_text_deltas :
  forall (createStream : CreateParams.t -> World -> completion EventStream * World)
         (this : ModelProvider.t) (messages : list Message.t)
         (systemPrompt : option jsstring) (w : World),
    match createStream (request this messages systemPrompt) w with
    | (Normal stream, w') =>
        streamChat createStream this messages systemPrompt w =
          (mkDrained
             (flat_map
                (fun event =>
                   match event with
                   | ContentBlockDelta (TextDelta text) => [text]
                   | _ => []
                   end) (events stream))
             match broken stream with
             | Some error =>
                 Throw (ErrorObject (streamErrorPrefix ++ messageOf error))
             | None => Normal tt
             end, w')
    | (Throw error, w') =>
        streamChat createStream this messages systemPrompt w =
          (mkDrained []
             (Throw (ErrorObject (streamErrorPrefix ++ messageOf error))), w')
    end.
Proof.
  intros createStream this messages systemPrompt w. unfold streamChat.
  destruct (createStream _ w) as [[stream|error] w']; [|reflexivity].
  f_equal. f_equal.
  induction (events stream) as [|[[text|]|] evs IH]; simpl; now rewrite ?IH.
Qed.

End ClaudeExtras.


(** ** The DeepSeek adapter's [chat] *)

Section DeepSeekChatExtras.
Context {World : Type}.
Variable fetch :
  DeepSeekProvider.Request -> World ->
  completion DeepSeekProvider.ChatResponse * World.
Variable typeError : JSON.Value -> jsstring -> jsstring.
Import DeepSeekProvider.

Lemma field_nullish (v : JSON.Value) (name : jsstring) :
  JSON.nullish v = true -> field v name = None.
Proof. destruct v; simpl; intros H; try discriminate; reflexivity. Qed.

Lemma field_defined (v : JSON.Value) (name : jsstring) :
  JSON.nullish v = false -> exists x, field v name = Some x.
Proof.
  destruct v; simpl; intros H; try discriminate; eauto.
  destruct (JSON.lookup name members); eauto.
Qed.


(** X19. A body is accepted when [choices[0].message] and [usage] are there,
    and then nothing is checked about what they hold: the content, the model
    and the three counters are the values found under their names,
    [undefined] for a name that is missing. A body whose [usage] is missing
    or null makes [chat] throw although the completion arrived, and so does
    one whose [choices] is an empty array. *)
Theorem deepseek_chat_needs_choices_and_usage :
  forall (this : ModelProvider.t) (messages : list Message.t)
         (systemPrompt : option jsstring) (w w' : World) (data : JSON.Value),
    fetch (completionsRequest this (convertMessages messages systemPrompt) false) w =
      (Normal (ChatOk (Normal data)), w') ->
    (forall cs choice message usage,
        field data (js "choices") = Some cs ->
        get cs index0 = Some choice ->
        field choice (js "message") = Some message ->
        JSON.nullish message = false ->
        field data (js "usage") = Some usage ->
        JSON.nullish usage = false ->
        exists r,
          chat fetch typeError this messages systemPrompt w = (Normal r, w') /\
          field message (js "content") = Some (reply_content r) /\
          field data (js "model") = Some (reply_model r) /\
          field usage (js "prompt_tokens") = Some (reply_promptTokens r) /\
          field usage (js "completion_tokens") = Some (reply_completionTokens r) /\
          field usage (js "total_tokens") = Some (reply_totalTokens r)) /\
    (forall usage,
        field data (js "usage") = Some usage -> JSON.nullish usage = true ->
        exists text,
          chat fetch typeError this messages systemPrompt w =
          (Throw (ErrorObject (apiErrorPrefix ++ text)), w')) /\
    (field data (js "choices") = Some (JSON.Array []) ->
     chat fetch typeError this messages systemPrompt w =
     (Throw (ErrorObject
               (apiErrorPrefix ++ typeError JSON.Undefined (js "message"))), w')).
Proof.
  intros this messages systemPrompt w w' data Hfetch.
  unfold chat. rewrite Hfetch. unfold reply, read, read0. repeat split.
  - intros cs choice message usage Hcs Hchoice Hmessage Hm Husage Hu.
    rewrite Hcs. simpl andThen. rewrite Hchoice. simpl andThen.
    rewrite Hmessage. simpl andThen.
    destruct (field_defined message (js "content") Hm) as [text Htext].
    rewrite Htext. simpl andThen.
    assert (Hd : JSON.nullish data = false).
    { destruct data; try reflexivity; discriminate. }
    destruct (field_defined data (js "model") Hd) as [model Hmodel].
    rewrite Hmodel. simpl andThen. rewrite Husage. simpl andThen.
    destruct (field_defined usage (js "prompt_tokens") Hu) as [pt Hpt].
    destruct (field_defined usage (js "completion_tokens") Hu) as [ct Hct].
    destruct (field_defined usage (js "total_tokens") Hu) as [tt Htt].
    rewrite Hpt. simpl andThen. rewrite Hct. simpl andThen.
    rewrite Htt. simpl andThen.
    eexists. split; [reflexivity|]. simpl. repeat split.
  - intros usage Husage Hu.
    destruct (field data (js "choices")) as [cs|]; cbn [andThen];
      [|eexists; reflexivity].
    destruct (get cs index0) as [choice|]; cbn [andThen]; [|eexists; reflexivity].
    destruct (field choice (js "message")) as [message|]; cbn [andThen];
      [|eexists; reflexivity].
    destruct (field message (js "content")) as [text|]; cbn [andThen];
      [|eexists; reflexivity].
    destruct (field data (js "model")) as [model|]; cbn [andThen];
      [|eexists; reflexivity].
    rewrite Husage. cbn [andThen]. rewrite (field_nullish usage _ Hu).
    eexists. reflexivity.
  - intros Hcs. rewrite Hcs. reflexivity.
Qed.
End DeepSeekChatExtras.

Lemma deepseek_chat_needs_choices_and_usage_witness :
  exists text,
    DeepSeekProvider.chat
      (fun _ (w : nat) =>
         (Normal
            (DeepSeekProvider.ChatOk
               (match JSON.parse
                        (js (quoted "{'choices':[{'message':{'content':'Hi'}}]}"))
                with
                | Some data => Normal data
                | None => Throw NonError
                end)), S w))
      (fun _ _ => js "TypeError")
      (DeepSeekProvider.constructor (P := DeepSeekProvider.impl exampleChat)
         exampleConfig)
      [Message.mk user (js "Hello")] None 0 =
    (Throw (ErrorObject (DeepSeekProvider.apiErrorPrefix ++ text)), 1).
Proof.
  apply (proj1 (proj2
    (@deepseek_chat_needs_choices_and_usage nat
       (fun _ (w : nat) =>
          (Normal
             (DeepSeekProvider.ChatOk
                (match JSON.parse
                         (js (quoted "{'choices':[{'message':{'content':'Hi'}}]}"))
                 with
                 | Some data => Normal data
                 | None => Throw NonError
                 end)), S w))
       (fun _ _ => js "TypeError")
       (DeepSeekProvider.constructor (P := DeepSeekProvider.impl exampleChat)
          exampleConfig)
       [Message.mk user (js "Hello")] None 0 1
       (JSON.Object
          [(js "choices",
            JSON.Array
              [JSON.Object
                 [(js "message",
                   JSON.Object [(js "content", JSON.String (js "Hi"))])]])])
       ltac:(vm_compute; reflexivity))) JSON.Undefined).
  - vm_compute. reflexivity.
  - reflexivity.
Defined.

(** ** The DeepSeek adapter's [streamChat], again *)

Section StreamExtras.
Import DeepSeekProvider.
Local Open Scope Z_scope.

Lemma completeLines_lines (lines : list jsstring) (tail : jsstring) :
  Forall (fun l => ~ In 10 l) lines -> ~ In 10 tail ->
  completeLines (concat (map (fun l => l ++ [10]) lines) ++ tail) = lines.
Proof.
  intros Hlines Htail. induction Hlines as [|l lines Hl _ IH]; simpl.
  - apply completeLines_free, Htail.
  - rewrite <- !app_assoc. simpl.
    rewrite (@completeLines_line l _ Hl). now rewrite IH.
Qed.

Lemma processLines_truthy (lines : list jsstring) :
  Forall (fun d => JSON.truthy d = true) (processLines lines).
Proof.
  induction lines as [|l lines IH]; simpl; [constructor|].
  destruct (processLine l) as [d|] eqn:E; [|exact IH].
  constructor; [|exact IH].
  unfold processLine in E.
  destruct (_ || _); [discriminate|]. destruct (negb _); [discriminate|].
  destruct (JSON.parse _) as [json|]; [|discriminate].
  destruct (deltaContent json) as [x|]; [|discriminate].
  destruct (JSON.truthy x) eqn:T; [|discriminate].
  inversion E; subst. exact T.
Qed.

Lemma processLines_length (lines : list jsstring) :
  (length (processLines lines) <= length lines)%nat.
Proof.
  induction lines as [|l lines IH]; simpl; [lia|].
  destruct (processLine l); simpl; lia.
Qed.

Lemma processLine_trim (l : jsstring) : processLine (trim l) = processLine l.
Proof. unfold processLine. now rewrite trim_idempotent. Qed.

Lemma processLine_space_after (l : jsstring) (c : Z) :
  is_space c = true -> processLine (l ++ [c]) = processLine l.
Proof. intros H. unfold processLine. now rewrite (trim_space_after c l H). Qed.

Lemma processLine_space_before (l : jsstring) (c : Z) :
  is_space c = true -> processLine (c :: l) = processLine l.
Proof. intros H. unfold processLine. now rewrite (trim_space_before c l H). Qed.

(** X20. [streamChat] fails only with an [Error] whose message starts with
    the adapter's streaming prefix. When [fetch] rejects, the response is not
    [ok] or has no body, nothing is yielded; for a response that is not [ok]
    the message carries the API prefix after the streaming prefix. When a
    read rejects, the fragments of the lines completed by then have been
    yielded, the same as if the stream had ended there. *)
Theorem streamChat_failures_carry_the_prefix :
  forall (fetched : completion Response),
    (forall error, finished (streamChat fetched) = Throw error ->
                   exists text, error = ErrorObject (streamErrorPrefix ++ text)) /\
    (forall error, fetched = Throw error ->
       streamChat fetched =
       mkDrained [] (Throw (ErrorObject (streamErrorPrefix ++ messageOf error)))) /\
    (forall detail, fetched = Normal (NotOk detail) ->
       streamChat fetched =
       mkDrained []
         (Throw (ErrorObject (streamErrorPrefix ++ apiErrorPrefix ++ detail)))) /\
    (fetched = Normal (Ok None) ->
       streamChat fetched =
       mkDrained [] (Throw (ErrorObject (streamErrorPrefix ++ noBody)))) /\
    (forall values error,
       fetched = reading (mkReader values (Some error)) ->
       streamChat fetched =
       mkDrained (yielded (streamChat (stream values)))
         (Throw (ErrorObject (streamErrorPrefix ++ messageOf error)))).
Proof.
  intros fetched. repeat split.
  - destruct fetched as [[detail|[[values [e|]]|]]|e]; intros error H;
      try (inversion H; eexists; reflexivity).
    + unfold streamChat, streamChat_run in H. simpl in H.
      destruct (loop _ values). simpl in H. inversion H. eexists. reflexivity.
    + unfold streamChat, streamChat_run in H. simpl in H.
      destruct (loop _ values). discriminate.
  - intros error ->. reflexivity.
  - intros detail ->. reflexivity.
  - intros ->. reflexivity.
  - intros values error ->. unfold stream. now rewrite !streamChat_spec.
Qed.

(** X21. When the decoded text is a sequence of lines, each ended by a
    newline, followed by text without one, [streamChat] yields what the lines
    yield one by one, in the order of the lines, at most one fragment for a
    line, and nothing for the text after the last newline. *)
Theorem streamChat_yields_line_by_line :
  forall (values : list (list Byte.byte)) (failure : option Thrown)
         (lines : list jsstring) (tail : jsstring),
    decoded values = concat (map (fun l => l ++ [10]) lines) ++ tail ->
    Forall (fun l => ~ In 10 l) lines -> ~ In 10 tail ->
    yielded (streamChat (reading (mkReader values failure))) =
    flat_map (fun l => match processLine l with Some d => [d] | None => [] end)
      lines.
Proof.
  intros values failure lines tail E Hlines Htail.
  rewrite streamChat_spec, E. simpl.
  rewrite (completeLines_lines lines tail Hlines Htail).
  clear. induction lines as [|l lines IH]; simpl; [reflexivity|].
  destruct (processLine l); simpl; now rewrite IH.
Qed.

(** X22. Line endings and padding do not matter: a stream whose lines end
    with a carriage return and a newline yields what the same lines ended by
    a newline alone yield, and white space around a line changes nothing. *)
Theorem streamChat_accepts_CRLF :
  forall (values values' : list (list Byte.byte)) (failure : option Thrown)
         (lines : list jsstring),
    decoded values = concat (map (fun l => l ++ [13; 10]) lines) ->
    decoded values' = concat (map (fun l => l ++ [10]) lines) ->
    Forall (fun l => ~ In 10 l) lines ->
    streamChat (reading (mkReader values failure)) =
      streamChat (reading (mkReader values' failure)) /\
    (forall l, processLine (trim l) = processLine l).
Proof.
  intros values values' failure lines E E' Hlines.
  split; [|apply processLine_trim].
  rewrite !streamChat_spec. f_equal.
  rewrite <- (app_nil_r (decoded values)), <- (app_nil_r (decoded values')).
  rewrite E'. rewrite (completeLines_lines lines [] Hlines (fun H => H)).
  replace (decoded values)
    with (concat (map (fun l => l ++ [10]) (map (fun l => l ++ [13]) lines))).
  - rewrite completeLines_lines.
    + clear. induction lines as [|l lines IH]; simpl; [reflexivity|].
      rewrite (processLine_space_after l 13 eq_refl), IH. reflexivity.
    + clear -Hlines. induction Hlines as [|l lines Hl _ IH]; simpl;
        constructor; [|exact IH].
      intros Hin. apply in_app_or in Hin as [Hin|[Hin|[]]];
        [contradiction | discriminate].
    + intros [].
  - rewrite E, map_map. f_equal. apply map_ext. intros l.
    now rewrite <- app_assoc.
Qed.
End StreamExtras.

Lemma streamChat_yields_line_by_line_witness :
  yielded
    (DeepSeekProvider.streamChat
       (stream [line hi; line ": ping"; list_byte_of_string "data: "])) =
  [JSON.String (js "Hi")].
Proof.
  apply (@streamChat_yields_line_by_line
           [line hi; line ": ping"; list_byte_of_string "data: "] None
           [js (quoted hi); js ": ping"] (js "data: ")).
  - vm_compute. reflexivity.
  - repeat constructor; vm_compute; intuition discriminate.
  - vm_compute. intuition discriminate.
Defined.

Lemma streamChat_accepts_CRLF_witness :
  DeepSeekProvider.streamChat
    (stream [list_byte_of_string (quoted hi) ++ [Byte.x0d; Byte.x0a]]) =
  DeepSeekProvider.streamChat (stream [line hi]).
Proof.
  apply (proj1 (@streamChat_accepts_CRLF
           [list_byte_of_string (quoted hi) ++ [Byte.x0d; Byte.x0a]] [line hi]
           None [js (quoted hi)] ltac:(vm_compute; reflexivity)
           ltac:(vm_compute; reflexivity)
           ltac:(repeat constructor; vm_compute; intuition discriminate))).
Defined.

(** ** Bytes, characters and lines *)

Section ByteFacts.
Import DeepSeekProvider.
Local Open Scope Z_scope.

Lemma land_low (b n : Z) : 0 <= n -> Z.land b (Z.ones n) = b mod 2 ^ n.
Proof. apply Z.land_ones. Qed.

Lemma lor_continuation (a b : Z) :
  0 <= a -> Z.lor (Z.shiftl a 6) (Z.land b 0x3F) = a * 64 + b mod 64.
Proof.
  intros Ha.
  change 0x3F with (Z.ones 6). rewrite Z.land_ones by lia.
  rewrite Z.shiftl_mul_pow2 by lia. change (2 ^ 6) with 64.
  pose proof (Z.add_lor_land (a * 64) (b mod 64)) as H.
  assert (E : Z.land (a * 64) (b mod 64) = 0).
  { apply Z.bits_inj'. intros n Hn. rewrite Z.land_spec, Z.bits_0.
    destruct (Z.ltb_spec n 6).
    - change 64 with (2 ^ 6). rewrite Z.mul_pow2_bits_low by lia. reflexivity.
    - replace (Z.testbit (b mod 64) n) with false; [apply andb_false_r|].
      symmetry. change 64 with (2 ^ 6).
      apply Z.mod_pow2_bits_high. lia. }
  lia.
Qed.

Ltac bools :=
  repeat match goal with
  | H : (_ && _) = true |- _ => apply andb_true_iff in H as [? ?]
  | H : (_ && _) = false |- _ => apply andb_false_iff in H
  | H : (_ <=? _) = true |- _ => apply Z.leb_le in H
  | H : (_ <=? _) = false |- _ => apply Z.leb_gt in H
  | H : (_ <? _) = true |- _ => apply Z.ltb_lt in H
  | H : (_ <? _) = false |- _ => apply Z.ltb_ge in H
  | H : (_ =? _) = true |- _ => apply Z.eqb_eq in H
  | H : (_ =? _) = false |- _ => apply Z.eqb_neq in H
  | H : negb _ = true |- _ => apply negb_true_iff in H
  | H : negb _ = false |- _ => apply negb_false_iff in H
  end.

Ltac cases :=
  repeat match goal with
  | |- context [if ?b then _ else _] => destruct b eqn:?
  end.

Ltac dlia := Z.to_euclidean_division_equations; lia.

Ltac proj :=
  cbn [fst snd TextDecoder.code_point TextDecoder.bytes_seen
       TextDecoder.bytes_needed TextDecoder.lower_boundary
       TextDecoder.upper_boundary TextDecoder.bom_seen TextDecoder.reset] in *.

Lemma lead_sound (d : TextDecoder.t) (b : Z) :
  sound d -> 0 <= b < 256 ->
  sound (fst (TextDecoder.lead d b)) /\
  newlines (snd (TextDecoder.lead d b)) = if b =? 10 then 1%nat else 0%nat.
Proof.
  intros Hd Hb. unfold TextDecoder.lead, TextDecoder.between.
  change 0x1F with (Z.ones 5). change 0xF with (Z.ones 4).
  change 0x7 with (Z.ones 3). rewrite !Z.land_ones by lia.
  change (2 ^ 5) with 32. change (2 ^ 4) with 16. change (2 ^ 3) with 8.
  unfold newlines.
  destruct ((0 <=? b) && (b <=? 127)) eqn:E1.
  { proj. split; [exact Hd|]. cbn [count_occ].
    destruct (Z.eq_dec b 10) as [->|Hn]; [reflexivity|].
    apply Z.eqb_neq in Hn. now rewrite Hn. }
  assert (Hn : (b =? 10) = false) by (bools; apply Z.eqb_neq; lia).
  rewrite Hn.
  destruct ((194 <=? b) && (b <=? 223)) eqn:E2.
  { proj. split; [|reflexivity]. unfold sound. proj. bools. dlia. }
  destruct ((224 <=? b) && (b <=? 239)) eqn:E3.
  { proj. split; [|reflexivity]. unfold sound. proj. bools.
    destruct (Z.eqb_spec b 224), (Z.eqb_spec b 237); dlia. }
  destruct ((240 <=? b) && (b <=? 244)) eqn:E4.
  { proj. split; [|reflexivity]. unfold sound. proj. bools.
    destruct (Z.eqb_spec b 240), (Z.eqb_spec b 244); dlia. }
  proj. split; [exact Hd | reflexivity].
Qed.

Lemma reset_sound (d : TextDecoder.t) : sound (TextDecoder.reset d).
Proof. unfold sound. proj. lia. Qed.

Lemma handler_sound (d : TextDecoder.t) (b : Z) :
  sound d -> 0 <= b < 256 ->
  sound (fst (TextDecoder.handler d b)) /\
  newlines (snd (TextDecoder.handler d b)) = if b =? 10 then 1%nat else 0%nat.
Proof.
  intros Hd Hb. unfold TextDecoder.handler.
  destruct (TextDecoder.bytes_needed d =? 0) eqn:E0; [now apply lead_sound|].
  destruct (negb (TextDecoder.between _ b _)) eqn:Eb.
  - pose proof (lead_sound (TextDecoder.reset d) b (reset_sound d) Hb) as [Hs Hc].
    destruct (TextDecoder.lead (TextDecoder.reset d) b) as [d' out].
    proj. split; [exact Hs|]. unfold newlines in *. cbn [count_occ].
    destruct (Z.eq_dec 65533 10); [discriminate | exact Hc].
  - unfold TextDecoder.between in Eb. destruct Hd as (Hl & Hu & Hc & Hn).
    bools. destruct Hn as [Hn|[Hseen Hcp]]; [contradiction|].
    rewrite lor_continuation by assumption.
    assert (Hne : (b =? 10) = false) by (apply Z.eqb_neq; lia).
    rewrite Hne.
    destruct (TextDecoder.bytes_seen d + 1 =? TextDecoder.bytes_needed d) eqn:Es;
      bools; proj.
    + split; [apply reset_sound|]. unfold newlines. cbn [count_occ].
      destruct (Z.eq_dec _ 10) as [E|E]; [dlia | reflexivity].
    + split; [|reflexivity]. unfold sound. proj. dlia.
Qed.

Lemma byteOf_value (x : Z) : 0 <= x < 256 -> Z.of_N (Byte.to_N (byteOf x)) = x.
Proof.
  intros H. unfold byteOf.
  destruct (Byte.of_N (Z.to_N x)) as [b|] eqn:E.
  - apply Stdlib.Strings.Byte.to_of_N in E. rewrite E. lia.
  - apply Stdlib.Strings.Byte.of_N_None_iff in E. lia.
Qed.

Ltac tests :=
  repeat match goal with
  | |- context [?a <=? ?b] =>
      first [ replace (a <=? b) with true by (symmetry; apply Z.leb_le; dlia)
            | replace (a <=? b) with false by (symmetry; apply Z.leb_gt; dlia) ]
  | |- context [?a <? ?b] =>
      first [ replace (a <? b) with true by (symmetry; apply Z.ltb_lt; dlia)
            | replace (a <? b) with false by (symmetry; apply Z.ltb_ge; dlia) ]
  | |- context [?a =? ?b] =>
      first [ replace (a =? b) with true by (symmetry; apply Z.eqb_eq; dlia)
            | replace (a =? b) with false by (symmetry; apply Z.eqb_neq; dlia) ]
  end.

Lemma decode_cons (d : TextDecoder.t) (b : Byte.byte) (rest : list Byte.byte) :
  TextDecoder.decode d (b :: rest) =
  let (d1, points) := TextDecoder.handler d (Z.of_N (Byte.to_N b)) in
  let (bom, kept) := TextDecoder.serialize (TextDecoder.bom_seen d1) points in
  let d2 := TextDecoder.mk (TextDecoder.code_point d1) (TextDecoder.bytes_seen d1)
              (TextDecoder.bytes_needed d1) (TextDecoder.lower_boundary d1)
              (TextDecoder.upper_boundary d1) bom in
  let (d3, text) := TextDecoder.decode d2 rest in
  (d3, flat_map TextDecoder.code_units kept ++ text).
Proof. reflexivity. Qed.


Lemma land_mask (x : Z) :
  Z.land x 0x1F = x mod 32 /\ Z.land x 0xF = x mod 16 /\ Z.land x 0x7 = x mod 8.
Proof.
  change 0x1F with (Z.ones 5). change 0xF with (Z.ones 4).
  change 0x7 with (Z.ones 3). rewrite !Z.land_ones by lia. repeat split.
Qed.

Ltac masks :=
  repeat match goal with
  | |- context [Z.land ?x 0x1F] => rewrite (proj1 (land_mask x))
  | |- context [Z.land ?x 0xF] => rewrite (proj1 (proj2 (land_mask x)))
  | |- context [Z.land ?x 0x7] => rewrite (proj2 (proj2 (land_mask x)))
  | |- context [Z.lor (Z.shiftl ?a 6) (Z.land ?b 0x3F)] =>
      rewrite (lor_continuation a b) by dlia
  end.

Ltac step :=
  rewrite decode_cons, byteOf_value by dlia;
  unfold TextDecoder.handler, TextDecoder.lead, TextDecoder.between;
  proj; masks; tests; cbn [andb negb TextDecoder.serialize]; proj.

Lemma decode_utf8 (p : Z) (rest : list Byte.byte) :
  scalar p ->
  TextDecoder.decode idle (utf8 p ++ rest) =
  let (d, text) := TextDecoder.decode idle rest in
  (d, TextDecoder.code_units p ++ text).
Proof.
  intros Hp. unfold utf8, scalar in *.
  destruct (Z.ltb_spec p 0x80).
  { cbn [app]. unfold idle. step. cbn [flat_map app].
    destruct (TextDecoder.decode _ rest) as [d text].
    now rewrite app_nil_r. }
  destruct (Z.ltb_spec p 0x800).
  { cbn [app]. unfold idle. step. step.
    replace ((192 + p / 64) mod 32 * 64 + (128 + p mod 64) mod 64) with p by dlia.
    cbn [flat_map app]. fold idle.
    destruct (TextDecoder.decode _ rest) as [d text].
    now rewrite app_nil_r. }
  destruct (Z.ltb_spec p 0x10000).
  { cbn [app]. unfold idle.
    destruct (Z.eq_dec (p / 4096) 0), (Z.eq_dec (p / 4096) 13);
      try (exfalso; lia);
      step; step; step;
      (replace (((224 + p / 4096) mod 16 * 64 + (128 + (p / 64) mod 64) mod 64) * 64 +
                (128 + p mod 64) mod 64) with p by dlia);
      cbn [flat_map app]; fold idle;
      destruct (TextDecoder.decode _ rest) as [d text];
      now rewrite app_nil_r. }
  cbn [app]. unfold idle.
  destruct (Z.eq_dec (p / 262144) 0), (Z.eq_dec (p / 262144) 4);
    try (exfalso; lia);
    step; step; step; step;
    (replace ((((240 + p / 262144) mod 8 * 64 + (128 + (p / 4096) mod 64) mod 64) * 64 +
               (128 + (p / 64) mod 64) mod 64) * 64 + (128 + p mod 64) mod 64)
       with p by dlia);
    cbn [flat_map app]; fold idle;
    destruct (TextDecoder.decode _ rest) as [d text];
    now rewrite app_nil_r.
Qed.

Lemma decode_points (points : list Z) (rest : list Byte.byte) :
  Forall scalar points ->
  TextDecoder.decode idle (flat_map utf8 points ++ rest) =
  let (d, text) := TextDecoder.decode idle rest in
  (d, flat_map TextDecoder.code_units points ++ text).
Proof.
  intros H. induction H as [|p points Hp _ IH]; simpl.
  - now destruct (TextDecoder.decode idle rest).
  - rewrite <- app_assoc, (decode_utf8 p _ Hp), IH.
    destruct (TextDecoder.decode idle rest) as [d text].
    now rewrite app_assoc.
Qed.

Lemma code_units_plain (p : Z) :
  scalar p -> plain p -> Forall plain (TextDecoder.code_units p).
Proof.
  intros Hs Hp. unfold TextDecoder.code_units.
  destruct (Z.ltb_spec p 0x10000); [constructor; [exact Hp | constructor]|].
  change 0x3FF with (Z.ones 10).
  rewrite Z.land_ones, Z.shiftr_div_pow2 by lia. change (2 ^ 10) with 1024.
  unfold plain, scalar in *.
  constructor; [dlia|]. constructor; [dlia | constructor].
Qed.

Lemma lex_app (a b : list Z) :
  forall st,
    JSON.lex st (a ++ b) =
    match lexRun st a with
    | Some (st', toks) =>
        match JSON.lex st' b with
        | Some more => Some (toks ++ more)
        | None => None
        end
    | None => None
    end.
Proof.
  induction a as [|c a IH]; intros st; simpl.
  - now destruct (JSON.lex st b).
  - destruct (JSON.lex_step st c) as [[st' toks]|]; [|reflexivity].
    rewrite IH. destruct (lexRun st' a) as [[st'' more]|]; [|reflexivity].
    destruct (JSON.lex st'' b); [|reflexivity]. now rewrite app_assoc.
Qed.

Lemma lexRun_plain (body : list Z) :
  Forall plain body ->
  forall acc, lexRun (JSON.LString acc) body = Some (JSON.LString (rev body ++ acc), []).
Proof.
  intros H. induction H as [|c body [H1 [H2 H3]] _ IH]; intros acc; [reflexivity|].
  simpl. apply Z.eqb_neq in H2, H3. rewrite H2, H3.
  replace (c <? 32) with false by (symmetry; apply Z.ltb_ge; lia).
  rewrite IH, <- app_assoc. reflexivity.
Qed.

Lemma lex_suffix (acc : list Z) :
  JSON.lex (JSON.LString acc) (js (quoted "'}}]}")) =
  Some [JSON.TString (rev acc); JSON.TRBrace; JSON.TRBrace; JSON.TRBracket;
        JSON.TRBrace].
Proof. reflexivity. Qed.

Lemma parse_content (body : list Z) :
  Forall plain body ->
  JSON.parse
    (js (quoted "{'choices':[{'delta':{'content':'") ++ body ++ js (quoted "'}}]}")) =
  Some (JSON.Object
          [(js "choices",
            JSON.Array
              [JSON.Object
                 [(js "delta", JSON.Object [(js "content", JSON.String body)])]])]).
Proof.
  intros H. unfold JSON.parse. rewrite lex_app.
  replace (lexRun JSON.LStart (js (quoted "{'choices':[{'delta':{'content':'")))
    with (Some (JSON.LString [],
                [JSON.TLBrace; JSON.TString (js "choices"); JSON.TColon;
                 JSON.TLBracket; JSON.TLBrace; JSON.TString (js "delta");
                 JSON.TColon; JSON.TLBrace; JSON.TString (js "content");
                 JSON.TColon]))
    by (vm_compute; reflexivity).
  rewrite lex_app, (lexRun_plain body H), app_nil_r, lex_suffix, rev_involutive.
  reflexivity.
Qed.

Lemma startsWith_app (p r : list Z) : startsWith (p ++ r) p = true.
Proof.
  induction p as [|c p IH]; simpl; [now destruct r|].
  now rewrite Z.eqb_refl.
Qed.

Lemma trim_framed (x y : Z) (a b c : list Z) :
  is_space x = false -> is_space y = false ->
  trim ((x :: a) ++ b ++ c ++ [y]) = (x :: a) ++ b ++ c ++ [y].
Proof.
  intros Hx Hy. simpl app. rewrite (trim_cons x _ Hx). f_equal.
  replace (a ++ b ++ c ++ [y]) with ((a ++ b ++ c) ++ [y])
    by now rewrite <- !app_assoc.
  rewrite rev_app_distr. change (rev [y]) with [y].
  change ([y] ++ rev (a ++ b ++ c)) with (y :: rev (a ++ b ++ c)).
  rewrite (trimStart_fixed y _ Hy).
  change (rev (y :: rev (a ++ b ++ c))) with (rev (rev (a ++ b ++ c)) ++ [y]).
  now rewrite rev_involutive.
Qed.

Lemma processLine_content (body : list Z) :
  body <> [] -> Forall plain body ->
  processLine (contentLine body) = Some (JSON.String body).
Proof.
  intros Hne H. unfold processLine, contentLine.
  assert (Et : trim (js (quoted contentPrefix) ++ body ++ js (quoted contentSuffix)) =
               js "data: " ++
               js (quoted "{'choices':[{'delta':{'content':'") ++ body ++
               js (quoted "'}}]}")).
  { exact (trim_framed 100 125 (tl (js (quoted contentPrefix))) body
             (removelast (js (quoted contentSuffix))) eq_refl eq_refl). }
  rewrite Et.
  replace (_ || _) with false by reflexivity.
  rewrite startsWith_app. cbn [negb].
  change (slice (js "data: " ++ ?r) 6) with r.
  rewrite (parse_content body H).
  replace (deltaContent _) with (Some (JSON.String body)) by reflexivity.
  destruct body; [contradiction | reflexivity].
Qed.

Lemma content_text (points : list Z) (values : list (list Byte.byte)) :
  Forall scalar points ->
  concat values =
    list_byte_of_string (quoted contentPrefix) ++ flat_map utf8 points ++
    line contentSuffix ->
  decoded values =
  contentLine (flat_map TextDecoder.code_units points) ++ [10].
Proof.
  intros Hs E. unfold decoded. rewrite E, decode_app.
  replace (TextDecoder.decode TextDecoder.new
             (list_byte_of_string (quoted contentPrefix)))
    with (idle, js (quoted contentPrefix)) by (vm_compute; reflexivity).
  rewrite (decode_points points _ Hs).
  replace (TextDecoder.decode idle (line contentSuffix))
    with (idle, js (quoted contentSuffix) ++ [10]) by (vm_compute; reflexivity).
  unfold contentLine. simpl. now rewrite <- !app_assoc.
Qed.

Lemma plain_not_newline (body : list Z) : Forall plain body -> ~ In 10 body.
Proof.
  intros H Hin. rewrite Forall_forall in H. destruct (H 10 Hin) as [Hc _]. lia.
Qed.

(** X23. A content delta of any text arrives intact, however the bytes are
    cut into reads: for every non-empty sequence of Unicode scalar values
    without control characters, quotes or backslashes, the line
    [data: {"choices":[{"delta":{"content":"..."}}]}] holding its UTF-8
    encoding, ended by a newline and delivered in any number of reads, makes
    [streamChat] yield exactly one fragment, the text as a JavaScript string
    (a surrogate pair for each character beyond U+FFFF). *)
Theorem content_arrives_intact :
  forall (points : list Z) (values : list (list Byte.byte))
         (failure : option Thrown),
    points <> [] ->
    Forall (fun p => scalar p /\ plain p) points ->
    concat values =
      list_byte_of_string (quoted contentPrefix) ++ flat_map utf8 points ++
      line contentSuffix ->
    yielded (streamChat (reading (mkReader values failure))) =
    [JSON.String (flat_map TextDecoder.code_units points)].
Proof.
  intros points values failure Hne Hpoints E.
  assert (Hs : Forall scalar points).
  { eapply Forall_impl; [|exact Hpoints]. intros p H. apply H. }
  assert (Hbody : Forall plain (flat_map TextDecoder.code_units points)).
  { clear -Hpoints. induction Hpoints as [|p points [Hs Hp] _ IH]; simpl;
      [constructor|]. apply Forall_app. split; [|exact IH].
    now apply code_units_plain. }
  assert (Hnon : flat_map TextDecoder.code_units points <> []).
  { destruct points as [|p points]; [contradiction|]. simpl.
    unfold TextDecoder.code_units. destruct (p <? 65536); discriminate. }
  rewrite streamChat_spec. cbn [yielded].
  rewrite (content_text points values Hs E).
  rewrite (@completeLines_line (contentLine _) []).
  - cbn [processLines completeLines]. 
    rewrite (processLine_content _ Hnon Hbody). reflexivity.
  - unfold contentLine. intros Hin.
    apply in_app_or in Hin as [Hin|Hin].
    + vm_compute in Hin. intuition discriminate.
    + apply in_app_or in Hin as [Hin|Hin].
      * exact (plain_not_newline _ Hbody Hin).
      * vm_compute in Hin. intuition discriminate.
Qed.

Lemma code_units_newlines (p : Z) :
  newlines (TextDecoder.code_units p) = newlines [p].
Proof.
  unfold TextDecoder.code_units, newlines.
  destruct (Z.ltb_spec p 0x10000); [reflexivity|].
  change 0x3FF with (Z.ones 10).
  rewrite Z.land_ones, Z.shiftr_div_pow2 by lia. change (2 ^ 10) with 1024.
  cbn [count_occ].
  repeat match goal with
  | |- context [Z.eq_dec ?a ?b] => destruct (Z.eq_dec a b); try dlia
  end.
Qed.

Lemma newlines_app (a b : list Z) : newlines (a ++ b) = (newlines a + newlines b)%nat.
Proof. apply count_occ_app. Qed.

Lemma newlines_units (points : list Z) :
  newlines (flat_map TextDecoder.code_units points) = newlines points.
Proof.
  induction points as [|p points IH]; [reflexivity|]. simpl.
  rewrite newlines_app, code_units_newlines, IH.
  change (p :: points) with ([p] ++ points). now rewrite newlines_app.
Qed.

Lemma serialize_newlines (points : list Z) :
  forall bom, newlines (snd (TextDecoder.serialize bom points)) = newlines points.
Proof.
  induction points as [|p points IH]; intros bom; [reflexivity|]. simpl.
  destruct bom.
  - specialize (IH true). destruct (TextDecoder.serialize true points). simpl in *.
    unfold newlines in *. simpl. now rewrite IH.
  - destruct (Z.eqb_spec p 0xFEFF).
    + rewrite IH. subst. reflexivity.
    + specialize (IH true). destruct (TextDecoder.serialize true points).
      simpl in *. unfold newlines in *. simpl. now rewrite IH.
Qed.

Lemma byte_is_newline (b : Byte.byte) :
  (if Z.of_N (Byte.to_N b) =? 10 then 1%nat else 0%nat) = newlineBytes [b].
Proof. destruct b; reflexivity. Qed.

Lemma byte_range (b : Byte.byte) : 0 <= Z.of_N (Byte.to_N b) < 256.
Proof. pose proof (Stdlib.Strings.Byte.to_N_bounded b). lia. Qed.

Lemma decode_newlines (bytes : list Byte.byte) :
  forall d, sound d ->
    newlines (snd (TextDecoder.decode d bytes)) = newlineBytes bytes.
Proof.
  induction bytes as [|b bytes IH]; intros d Hd; [reflexivity|].
  rewrite decode_cons.
  pose proof (handler_sound d _ Hd (byte_range b)) as [Hs Hc].
  destruct (TextDecoder.handler d _) as [d1 points]. proj.
  pose proof (serialize_newlines points (TextDecoder.bom_seen d1)) as Hk.
  destruct (TextDecoder.serialize _ points) as [bom kept]. proj.
  match goal with |- context [TextDecoder.decode ?d2 bytes] =>
    assert (H2 : sound d2) by exact Hs; specialize (IH d2 H2);
    destruct (TextDecoder.decode d2 bytes) as [d3 text] end.
  proj. rewrite newlines_app, newlines_units, Hk, Hc, IH, byte_is_newline.
  unfold newlineBytes. change (b :: bytes) with ([b] ++ bytes).
  now rewrite count_occ_app.
Qed.

Lemma split_length (s : list Z) : length (split 10 s) = S (newlines s).
Proof.
  induction s as [|c s IH]; [reflexivity|].
  destruct (Z.eq_dec c 10) as [->|Hc].
  - rewrite split_cons_sep. simpl. now rewrite IH.
  - destruct (@split_cons_other 10 c s Hc) as (first & others & E & ->).
    rewrite E in IH. simpl in *. unfold newlines in *. simpl.
    destruct (Z.eq_dec c 10); [contradiction | exact IH].
Qed.

(** X24. [streamChat] never yields an empty fragment: every fragment is a
    truthy value. And the lines it reads are the lines of the bytes: however
    the bytes decode, valid UTF-8 or not, the number of completed lines is the
    number of newline bytes received, so there are at most that many
    fragments. *)
Theorem fragments_are_bounded :
  forall (fetched : completion Response),
    Forall (fun d => JSON.truthy d = true) (yielded (streamChat fetched)) /\
    forall values failure,
      fetched = reading (mkReader values failure) ->
      length (completeLines (decoded values)) = newlineBytes (concat values) /\
      (length (yielded (streamChat fetched)) <= newlineBytes (concat values))%nat.
Proof.
  intros fetched. split.
  - destruct fetched as [[detail|[[values failure]|]]|e]; try constructor.
    change (Normal (Ok (Some (mkReader values failure))))
      with (reading (mkReader values failure)).
    rewrite streamChat_spec. apply processLines_truthy.
  - intros values failure ->. rewrite streamChat_spec. cbn [yielded].
    assert (E : length (completeLines (decoded values)) = newlineBytes (concat values)).
    { unfold completeLines, decoded.
      rewrite removelast_firstn_len, length_firstn, split_length.
      rewrite <- (decode_newlines (concat values) TextDecoder.new);
        [simpl; lia|].
      unfold sound. simpl. lia. }
    split; [exact E|]. rewrite <- E. apply processLines_length.
Qed.

End ByteFacts.

Lemma content_arrives_intact_witness :
  yielded
    (DeepSeekProvider.streamChat
       (stream
          [list_byte_of_string (quoted contentPrefix) ++ [Byte.xe4; Byte.xbd];
           [Byte.xa0; Byte.xf0; Byte.x9f];
           [Byte.x98; Byte.x80] ++ line contentSuffix])) =
  [JSON.String [0x4F60; 0xD83D; 0xDE00]%Z].
Proof.
  apply (content_arrives_intact [0x4F60; 0x1F600]%Z
           [list_byte_of_string (quoted contentPrefix) ++ [Byte.xe4; Byte.xbd];
            [Byte.xa0; Byte.xf0; Byte.x9f];
            [Byte.x98; Byte.x80] ++ line contentSuffix] None).
  - discriminate.
  - repeat constructor; unfold scalar, plain; lia.
  - vm_compute. reflexivity.
Defined.

Lemma fragments_are_bounded_witness :
  (length (yielded (DeepSeekProvider.streamChat
                      (stream [line hi; line ": ping"; line hi]))) <= 3)%nat.
Proof.
  apply (proj2 (fragments_are_bounded
                  (stream [line hi; line ": ping"; line hi]))
           [line hi; line ": ping"; line hi] None eq_refl).
Defined.

Lemma session_ends_only_on_quit_witness :
  NovelAgent.onLine (P := exampleImpl) (js " /quit ")
    (NovelAgent.constructor (P := exampleImpl) (js "prompt") exampleConfig, 0) =
  ([NovelAgent.Log NovelAgent.goodbye; NovelAgent.Log NovelAgent.ended;
    NovelAgent.Exit 0%Z],
   (NovelAgent.constructor (P := exampleImpl) (js "prompt") exampleConfig, 0)).
Proof.
  apply (proj2 (@session_ends_only_on_quit nat exampleImpl (js " /quit ")
                  (NovelAgent.constructor (P := exampleImpl) (js "prompt")
                     exampleConfig, 0))).
  reflexivity.
Defined.

Lemma createProvider_agrees_with_isSupported_witness :
  ProviderFactory.createProvider (fun _ (w : nat) => (Throw NonError, w))
    exampleChat (js "openai") exampleConfig =
  Throw (ErrorObject (ProviderFactory.unsupported ++ js "openai")).
Proof.
  apply (proj2 (proj2 (@createProvider_agrees_with_isSupported nat
                         (fun _ w => (Throw NonError, w)) exampleChat
                         (js "openai") exampleConfig))).
  reflexivity.
Defined.


Lemma streamChat_failures_carry_the_prefix_witness :
  DeepSeekProvider.streamChat
    (reading (DeepSeekProvider.mkReader [line hi] (Some (ErrorObject (js "reset"))))) =
  mkDrained [JSON.String (js "Hi")]
    (Throw (ErrorObject (DeepSeekProvider.streamErrorPrefix ++ js "reset"))).
Proof.
  rewrite (proj2 (proj2 (proj2 (proj2
    (streamChat_failures_carry_the_prefix
       (reading (DeepSeekProvider.mkReader [line hi]
                   (Some (ErrorObject (js "reset"))))))))) [line hi]
    (ErrorObject (js "reset")) eq_refl).
  vm_compute. reflexivity.
Defined.

(** ** A session on the Claude adapter *)

Section ClaudeSession.
Context {World : Type}.
Variable create :
  ClaudeProvider.CreateParams.t -> World -> completion ClaudeProvider.Reply * World.

(** X25. On the Claude adapter a submit makes one SDK call, whose [messages]
    are the whole history of the session followed by the new user message,
    with no system entry among them, and whose [system] is the session's
    system prompt; the model and the limits are the configured ones or their
    defaults. What the call throws reaches the caller as an [Error] with the
    adapter's prefix before the original message. *)
Theorem claude_session_sends_whole_history :
  forall (buildSystemPrompt : jsstring) (config : ModelConfig.t)
         (texts : list jsstring) (text : jsstring) (w : World),
    let s :=
      snd (NovelAgent.submitAll (P := ClaudeProvider.impl create) texts
             (NovelAgent.constructor (P := ClaudeProvider.impl create)
                buildSystemPrompt config, w)) in
    let sent :=
      create
        {| ClaudeProvider.CreateParams.model :=
             or_string (ModelConfig.model config) (js "claude-sonnet-4-5-20250929");
           ClaudeProvider.CreateParams.max_tokens :=
             or_number (ModelConfig.maxTokens config) 4096%float;
           ClaudeProvider.CreateParams.temperature :=
             or_number (ModelConfig.temperature config) 0.7%float;
           ClaudeProvider.CreateParams.system := Some buildSystemPrompt;
           ClaudeProvider.CreateParams.messages :=
             NovelAgent.getHistory (fst s) ++ [Message.mk user text] |}
        (snd s) in
    snd (snd (NovelAgent.chat (P := ClaudeProvider.impl create) text s)) = snd sent /\
    (forall error, fst sent = Throw error ->
       fst (NovelAgent.chat (P := ClaudeProvider.impl create) text s) =
       Throw (ErrorObject (ClaudeProvider.errorPrefix ++ messageOf error))) /\
    (forall reply, fst sent = Normal reply ->
       exists content,
         fst (NovelAgent.chat (P := ClaudeProvider.impl create) text s) =
           Normal content /\
         NovelAgent.getHistory
           (fst (snd (NovelAgent.chat (P := ClaudeProvider.impl create) text s))) =
         NovelAgent.getHistory (fst s) ++
         [Message.mk user text; Message.mk assistant content]).
Proof.
  intros sp config texts text w s sent.
  destruct (@submitAll_adds World (ClaudeProvider.impl create) texts
              (NovelAgent.constructor (P := ClaudeProvider.impl create) sp config) w)
    as (Hp & Hs & _ & added & Hh & _ & _ & Hsys & _).
  fold s in Hp, Hs, Hh. simpl in Hp, Hs, Hh.
  destruct s as [this w1]. simpl in Hp, Hs, Hh, sent.
  assert (Hreq : ClaudeProvider.request (NovelAgent.provider this)
                   (NovelAgent.conversationHistory this ++ [Message.mk user text])
                   (Some (NovelAgent.systemPrompt this)) =
                 {| ClaudeProvider.CreateParams.model :=
                      or_string (ModelConfig.model config)
                        (js "claude-sonnet-4-5-20250929");
                    ClaudeProvider.CreateParams.max_tokens :=
                      or_number (ModelConfig.maxTokens config) 4096%float;
                    ClaudeProvider.CreateParams.temperature :=
                      or_number (ModelConfig.temperature config) 0.7%float;
                    ClaudeProvider.CreateParams.system := Some sp;
                    ClaudeProvider.CreateParams.messages :=
                      NovelAgent.conversationHistory this ++ [Message.mk user text] |}).
  { unfold ClaudeProvider.request. rewrite Hp, Hs. simpl. f_equal.
    unfold ClaudeProvider.convertMessages.
    rewrite (map_ext _ (fun msg => msg) Message_eta), map_id.
    apply filter_all. rewrite Hh. simpl.
    rewrite filter_app. simpl. rewrite app_nil_r.
    rewrite <- Hsys. unfold withRole. apply filter_ext.
    intros msg. apply negb_involutive. }
  rewrite chat_run. cbn [ModelProvider.chat ClaudeProvider.impl].
  unfold ClaudeProvider.chat. rewrite Hreq. unfold NovelAgent.getHistory.
  subst sent. destruct (create _ w1) as [[reply|e] w2]; simpl;
    repeat split; try (intros ? H; discriminate).
  - intros reply0 H. inversion H; subst. eexists. split; [reflexivity|].
    now rewrite <- app_assoc.
  - intros error H. inversion H. reflexivity.
Qed.
End ClaudeSession.

Lemma claude_session_sends_whole_history_witness :
  fst (NovelAgent.chat
         (P := ClaudeProvider.impl (fun _ (w : nat) => (Throw NonError, S w)))
         (js "Hello")
         (NovelAgent.constructor
            (P := ClaudeProvider.impl (fun _ (w : nat) => (Throw NonError, S w)))
            (js "prompt") exampleConfig, 0)) =
  Throw (ErrorObject (ClaudeProvider.errorPrefix ++ unknownError)).
Proof.
  apply (proj1 (proj2
    (@claude_session_sends_whole_history nat
       (fun _ (w : nat) => (Throw NonError, S w)) (js "prompt") exampleConfig
       [] (js "Hello") 0)) NonError).
  reflexivity.
Defined.
